(** * textual-autocomplete: the dropdown renderer and the sync loop

    A shallow embedding of [textual_autocomplete/_autocomplete.py]:
    [Candidate], [DropdownRender] ([__rich_console__], [__rich_measure__])
    and the [AutoComplete] widget ([on_mount], [render], the two watch
    callbacks and [_sync_state]).

    The widget mutates itself and talks to its host (the application, the
    screen, the linked [Input], the result provider), so its methods are
    written in a state-and-exception monad over a [World] that holds the
    widget together with the part of the host it touches.  A raised
    exception keeps the world as it was mutated so far, as in Python.

    A Python [str] is a [string], one character for one code point, and a
    Python [int] is a [Z]. *)

From Stdlib Require Import String Ascii List ZArith Bool Lia PeanoNat.
From Stdlib Require Import Sorted Permutation RelationClasses.
Import ListNotations.

Open Scope string_scope.
Open Scope Z_scope.

(** ** The part of [rich] that the renderer calls *)

Module Rich.

(** [rich.text.Span]: a styled half-open range of code point offsets. *)
Record Span : Type := mkSpan {
  span_start : Z;
  span_end : Z;
  span_style : string
}.

(** [rich.text.Text]: the plain text and the spans laid over it.  Every
    [Text] the renderer builds has the empty base style, which adds no
    span anywhere, so the base style is not carried. *)
Record Text : Type := mkText {
  plain : string;
  spans : list Span
}.

(** [rich.measure.Measurement(minimum, maximum)], a named tuple. *)
Record Measurement : Type := mkMeasurement {
  minimum : Z;
  maximum : Z
}.

Definition len (t : Text) : Z := Z.of_nat (String.length (plain t)).

(** Bell, backspace, vertical tab, form feed, carriage return. *)
Definition STRIP_CONTROL_CODES : list nat := [7; 8; 11; 12; 13]%nat.

Definition is_control_code (c : ascii) : bool :=
  existsb (Nat.eqb (nat_of_ascii c)) STRIP_CONTROL_CODES.

Fixpoint strip_control_codes (text : string) : string :=
  match text with
  | EmptyString => EmptyString
  | String c rest =>
      if is_control_code c then strip_control_codes rest
      else String c (strip_control_codes rest)
  end.

(** [Text(text)] *)
Definition Text_init (text : string) : Text :=
  mkText (strip_control_codes text) [].

(** [re.finditer(re.escape(word), s)]: the matches of a literal, scanned
    from the left, none overlapping an earlier one.  [pos] is the offset
    of [s] in the whole text and [skip] counts the characters still
    covered by the match just reported.  The empty literal matches once
    at every offset, the end included. *)
Fixpoint finditer_from (word s : string) (pos skip : nat) : list (nat * nat) :=
  match s with
  | EmptyString =>
      if String.eqb word "" then [(pos, pos)] else []
  | String _ rest =>
      match skip with
      | S k => finditer_from word rest (S pos) k
      | O =>
          if String.prefix word s
          then (pos, (pos + String.length word)%nat)
                 :: finditer_from word rest (S pos) (pred (String.length word))
          else finditer_from word rest (S pos) O
      end
  end.

Definition finditer (word s : string) : list (nat * nat) :=
  finditer_from word s O O.

Definition span_of (style : string) (m : nat * nat) : Span :=
  mkSpan (Z.of_nat (fst m)) (Z.of_nat (snd m)) style.

(** [text.highlight_words([word], style)] with the default
    [case_sensitive=True]: one span per match of the word, appended after
    the spans already there.  The renderer always passes a one-word list. *)
Definition highlight_words (self : Text) (word style : string) : Text :=
  mkText (plain self) (spans self ++ map (span_of style) (finditer word (plain self))).

Definition shift (offset : Z) (s : Span) : Span :=
  mkSpan (offset + span_start s) (offset + span_end s) (span_style s).

(** [loop_last]: every line followed by the separator, but the last. *)
Fixpoint interleave (sep : Text) (lines : list Text) : list Text :=
  match lines with
  | [] => []
  | line :: rest =>
      match rest with
      | [] => [line]
      | _ :: _ => line :: sep :: interleave sep rest
      end
  end.

Definition iter_text (self : Text) (lines : list Text) : list Text :=
  if String.eqb (plain self) "" then lines else interleave self lines.

(** The loop of [Text.join]: [new_text] grows by each piece, the spans of
    the piece moved by the running [offset]. *)
Fixpoint join_loop (pieces : list Text) (offset : Z) (new_text : Text) : Text :=
  match pieces with
  | [] => new_text
  | text :: rest =>
      join_loop rest (offset + len text)
        (mkText (plain new_text ++ plain text)
                (spans new_text ++ map (shift offset) (spans text)))
  end.

(** [self.join(lines)] *)
Definition join (self : Text) (lines : list Text) : Text :=
  join_loop (iter_text self lines) 0 (mkText "" []).

(** [self.append(text)] for a [str] and no style. *)
Definition append (self : Text) (text : string) : Text :=
  if (String.length text =? 0)%nat then self
  else mkText (plain self ++ strip_control_codes text) (spans self).

End Rich.

(** The line feed, Python's ["\n"]. *)
Definition LF : string := String "010"%char EmptyString.

(** ** Candidate *)

(** The dataclass; every field defaults to the empty value. *)
Record Candidate : Type := mkCandidate {
  main : string;
  left_meta : string;
  right_meta : string;
  highlight_ranges : list (Z * Z)
}.

(** ** DropdownRender *)

Module DropdownRender.

(** The attributes [__init__] stores; its fourth argument,
    [component_styles], is dropped. *)
Record t : Type := mk {
  filter : string;
  matches : list Candidate;
  highlight_index : Z
}.

(** The body of the loop of [__rich_console__]: one line per match. *)
Definition candidate_text (self : t) (match_ : Candidate) : Rich.Text :=
  Rich.highlight_words (Rich.Text_init (main match_)) (filter self) "on yellow".

Definition __rich_console__ (self : t) : Rich.Text :=
  Rich.append
    (Rich.join (Rich.Text_init LF) (map (candidate_text self) (matches self)))
    LF.

(** [get] is [partial(Measurement.get, console, options)]: what the
    console measures for a string. *)
Definition __rich_measure__ (self : t) (get : string -> Rich.Measurement)
  : Rich.Measurement :=
  let maximum :=
    fold_left
      (fun maximum match_ =>
         Z.max (Rich.maximum (get (left_meta match_))
                + Rich.maximum (get (main match_))
                + Rich.maximum (get (right_meta match_)))
               maximum)
      (matches self) 0 in
  Rich.mkMeasurement 10 maximum.

End DropdownRender.

(** ** The widget and its host *)

Inductive Exn : Type :=
| AutoCompleteError (msg : string)
| AssertionError (msg : string)
| NoMatches (selector : string)       (* raised by [app.query_one] *)
| Raised (what : string).             (* anything the provider raises *)

(** [linked_input: Input | str]: a reference to the widget or a selector. *)
Inductive LinkedInput : Type :=
| InputRef (ref : nat)
| Selector (query : string).

(** The two reactives of [textual.widgets.Input] that the widget reads. *)
Record Input : Type := mkInput {
  value : string;
  cursor_position : Z
}.

(** The bound methods handed to [watch]. *)
Inductive Callback : Type :=
| cursor_position_changed
| value_changed.

(** How a method call ends. *)
Inductive Outcome (A : Type) : Type :=
| Returns (a : A)
| Raises (e : Exn).

Arguments Returns {A} a.
Arguments Raises {A} e.

Section Widget.

(** The provider is any Python callable: it may keep state of its own
    between calls ([PState]) and it may raise. *)
Context {PState : Type}.

Definition ResultProvider : Type :=
  string -> Z -> PState -> (Exn + list Candidate) * PState.

(** The attributes set by [AutoComplete.__init__], and [display], the
    style flag of the [Widget] base class that [_sync_state] assigns. *)
Record AutoComplete : Type := mkAutoComplete {
  _get_results : ResultProvider;
  _linked_input : LinkedInput;
  _matches : list Candidate;
  _input_widget : option nat;
  display : bool
}.

(** [AutoComplete(linked_input, get_results)].  [__init__] assigns no
    display: the widget is constructed with the display flag of the
    [Widget] base class, which is on. *)
Definition AutoComplete_init (linked_input : LinkedInput)
  (get_results : ResultProvider) : AutoComplete :=
  mkAutoComplete get_results linked_input [] None true.

(** The widget and what it reaches of its host.  [calls] records every
    call made to the provider, in order; [watchers] the subscriptions made
    through [watch]; [refreshes] the number of [refresh()] requests.
    [watch_init] is the host's side of [watch]: whether a subscription to
    the named attribute of an input calls the watcher at once, with the
    attribute's current value ([init=True] is the default of [watch];
    whether the call reaches the watcher is decided inside the host). *)
Record World : Type := mkWorld {
  widget : AutoComplete;
  inputs : nat -> Input;                       (* the Input objects, by reference *)
  query_one : string -> option nat;            (* [app.query_one(selector, Input)] *)
  layers : list string;                        (* [screen.layers] *)
  watch_init : string -> bool;
  watchers : list (nat * string * Callback);
  refreshes : nat;
  provider : PState;
  calls : list (string * Z)
}.

Definition M (A : Type) : Type := World -> Outcome A * World.

Definition ret {A : Type} (a : A) : M A := fun w => (Returns a, w).

Definition raise {A : Type} (e : Exn) : M A := fun w => (Raises e, w).

Definition bind {A B : Type} (m : M A) (k : A -> M B) : M B :=
  fun w =>
    match m w with
    | (Returns a, w') => k a w'
    | (Raises e, w') => (Raises e, w')
    end.

Definition gets {A : Type} (f : World -> A) : M A := fun w => (Returns (f w), w).

Definition modify (f : World -> World) : M unit := fun w => (Returns tt, f w).

Notation "x <- m ;; k" := (bind m (fun x => k))
  (at level 61, m at next level, right associativity).
Notation "m ;; k" := (bind m (fun _ => k))
  (at level 61, right associativity).

Definition with_widget (f : AutoComplete -> AutoComplete) (w : World) : World :=
  mkWorld (f (widget w)) (inputs w) (query_one w) (layers w) (watch_init w) (watchers w)
          (refreshes w) (provider w) (calls w).

(** [self._matches = ms] *)
Definition set_matches (ms : list Candidate) : M unit :=
  modify (with_widget (fun a =>
    mkAutoComplete (_get_results a) (_linked_input a) ms (_input_widget a) (display a))).

(** [self.display = b] *)
Definition set_display (b : bool) : M unit :=
  modify (with_widget (fun a =>
    mkAutoComplete (_get_results a) (_linked_input a) (_matches a) (_input_widget a) b)).

(** [self._input_widget = ref] *)
Definition set_input_widget (ref : nat) : M unit :=
  modify (with_widget (fun a =>
    mkAutoComplete (_get_results a) (_linked_input a) (_matches a) (Some ref) (display a))).

(** [self.refresh()] *)
Definition refresh : M unit :=
  modify (fun w =>
    mkWorld (widget w) (inputs w) (query_one w) (layers w) (watch_init w) (watchers w)
            (S (refreshes w)) (provider w) (calls w)).

(** [self.app.query_one(selector, Input)] *)
Definition app_query_one (selector : string) : M nat :=
  q <- gets query_one ;;
  match q selector with
  | Some ref => ret ref
  | None => raise (NoMatches selector)
  end.

(** [self._get_results(value, cursor_position)]: the call is recorded and
    the provider's own state moves on, whether it returns or raises. *)
Definition get_results (value : string) (cursor_position : Z) : M (list Candidate) :=
  fun w =>
    let (r, p) := _get_results (widget w) value cursor_position (provider w) in
    let w' := mkWorld (widget w) (inputs w) (query_one w) (layers w) (watch_init w) (watchers w)
                      (refreshes w) p (calls w ++ [(value, cursor_position)]) in
    match r with
    | inl e => (Raises e, w')
    | inr ms => (Returns ms, w')
    end.

Definition _sync_state (value : string) (cursor_position : Z) : M unit :=
  ms <- get_results value cursor_position ;;
  set_matches ms ;;
  set_display ((0 <? Z.of_nat (List.length ms)) && negb (String.eqb value "")) ;;
  refresh.

(** [assert self._input_widget is not None, "input_widget set in on_mount"] *)
Definition assert_input_widget : M nat :=
  input_widget <- gets (fun w => _input_widget (widget w)) ;;
  match input_widget with
  | Some ref => ret ref
  | None => raise (AssertionError "input_widget set in on_mount")
  end.

Definition render : M DropdownRender.t :=
  ref <- assert_input_widget ;;
  input <- gets (fun w => inputs w ref) ;;
  ms <- gets (fun w => _matches (widget w)) ;;
  ret (DropdownRender.mk (value input) ms 0).

Definition _input_cursor_position_changed (cursor_position' : Z) : M unit :=
  ref <- assert_input_widget ;;
  input <- gets (fun w => inputs w ref) ;;
  _sync_state (value input) cursor_position'.

Definition _input_value_changed (value' : string) : M unit :=
  ref <- assert_input_widget ;;
  input <- gets (fun w => inputs w ref) ;;
  _sync_state value' (cursor_position input).

(** [DEFAULT_CSS], as the host applies it to the widget before it
    delivers the mount event: [display: none]. *)
Definition apply_default_css : M unit := set_display false.

Definition same_callback (a b : Callback) : bool :=
  match a, b with
  | cursor_position_changed, cursor_position_changed => true
  | value_changed, value_changed => true
  | _, _ => false
  end.

Definition same_watcher (x y : nat * string * Callback) : bool :=
  Nat.eqb (fst (fst x)) (fst (fst y))
  && String.eqb (snd (fst x)) (snd (fst y))
  && same_callback (snd x) (snd y).

(** [watchers.add(callback)]: the watchers of an attribute are a set, so a
    callback already there is not added again. *)
Definition register (obj : nat) (attribute_name : string) (callback : Callback)
  (w : World) : World :=
  if existsb (same_watcher (obj, attribute_name, callback)) (watchers w) then w
  else mkWorld (widget w) (inputs w) (query_one w) (layers w) (watch_init w)
               (watchers w ++ [(obj, attribute_name, callback)])
               (refreshes w) (provider w) (calls w).

(** The host calls a watcher of the widget with the current value of the
    attribute it watches: the cursor callback with the input's cursor
    position, the value callback with its value. *)
Definition call_watcher (obj : nat) (callback : Callback) : M unit :=
  input <- gets (fun w => inputs w obj) ;;
  match callback with
  | cursor_position_changed => _input_cursor_position_changed (cursor_position input)
  | value_changed => _input_value_changed (value input)
  end.

(** [watch(obj, attribute_name=..., callback=...)]: the callback is
    registered and, where the host calls watchers on subscription, called
    at once, inside [watch]. *)
Definition watch (obj : nat) (attribute_name : string) (callback : Callback) : M unit :=
  modify (register obj attribute_name callback) ;;
  init <- gets (fun w => watch_init w attribute_name) ;;
  if init then call_watcher obj callback else ret tt.

Definition on_mount : M unit :=
  linked_input <- gets (fun w => _linked_input (widget w)) ;;
  ref <- match linked_input with
         | Selector query => app_query_one query
         | InputRef ref => ret ref
         end ;;
  set_input_widget ref ;;
  screen_layers <- gets layers ;;
  if negb (existsb (String.eqb "textual-autocomplete") screen_layers)
  then raise (AutoCompleteError "Screen must have a layer called `textual-autocomplete`.")
  else
    watch ref "cursor_position" cursor_position_changed ;;
    watch ref "value" value_changed ;;
    input <- gets (fun w => inputs w ref) ;;
    _sync_state (value input) (cursor_position input).

(** A run of syncs, each on the world the one before left; it stops at the
    first one that raises. *)
Fixpoint sync_all (args : list (string * Z)) : M unit :=
  match args with
  | [] => ret tt
  | (text, cursor) :: rest => _sync_state text cursor ;; sync_all rest
  end.

End Widget.

Arguments ResultProvider : clear implicits.
Arguments AutoComplete : clear implicits.
Arguments World : clear implicits.
Arguments M : clear implicits.

(** ** Notions the statements below are written with *)

(** The input reference [on_mount] resolves: the widget it was given, or
    what the application's lookup finds for the selector. *)
Definition linked_ref {PState : Type} (w : World PState) : option nat :=
  match _linked_input (widget w) with
  | InputRef ref => Some ref
  | Selector query => query_one w query
  end.

(** [word] occurs in [s] at offset [i]. *)
Definition occurs_at (word s : string) (i : nat) : Prop :=
  substring i (String.length word) s = word.

(** The character at offset [k] of [t] lies under one of its spans. *)
Definition highlighted (t : Rich.Text) (k : nat) : Prop :=
  exists sp, In sp (Rich.spans t)
             /\ Rich.span_start sp <= Z.of_nat k < Rich.span_end sp.

(** The three column widths of a match, added as [__rich_measure__] adds
    them. *)
Definition combined_width (get : string -> Rich.Measurement) (c : Candidate) : Z :=
  Rich.maximum (get (left_meta c)) + Rich.maximum (get (main c))
  + Rich.maximum (get (right_meta c)).

(** The string [s] from offset [n] on. *)
Fixpoint drop (n : nat) (s : string) : string :=
  match n, s with
  | O, _ => s
  | S _, EmptyString => EmptyString
  | S n', String _ rest => drop n' rest
  end.

(** The world once [on_mount] has stored the input reference. *)
Definition resolved {PState : Type} (ref : nat) (w : World PState) : World PState :=
  snd (set_input_widget ref w).

(** What [on_mount] does once the layer check has passed. *)
Definition subscribe_and_sync {PState : Type} (ref : nat) : M PState unit :=
  bind (watch ref "cursor_position" cursor_position_changed) (fun _ =>
  bind (watch ref "value" value_changed) (fun _ =>
  bind (gets (fun w => inputs w ref)) (fun input =>
  _sync_state (value input) (cursor_position input)))).

(** The number of watchers the host calls at once during a mount. *)
Definition init_calls {PState : Type} (w : World PState) : nat :=
  ((if watch_init w "cursor_position" then 1 else 0)
   + (if watch_init w "value" then 1 else 0))%nat.

(** The offset in the block of the line that follows the matches [before]:
    their lines and one line feed after each. *)
Definition line_offset (before : list Candidate) : nat :=
  list_sum (map (fun c => S (String.length (Rich.strip_control_codes (main c)))) before).

(** The message of the error [on_mount] raises. *)
Definition layer_missing : Exn :=
  AutoCompleteError "Screen must have a layer called `textual-autocomplete`.".

(** Every span of [t] is a match of [word] in the text of [t], styled as
    the renderer styles it. *)
Definition marks_word (word : string) (t : Rich.Text) : Prop :=
  forall sp, In sp (Rich.spans t) ->
    exists i, sp = Rich.span_of "on yellow" (i, (i + String.length word)%nat)
              /\ occurs_at word (Rich.plain t) i.

(** [on_mount] is under way from the world [w0] on the input [ref]: the
    world [w1] still has the inputs, the provider function and the host of
    [w0], the widget holds [ref], and the provider has been called [k]
    times since [w0], each time on the value and the cursor position of
    the input. *)
Definition mounting {PState : Type} (w0 : World PState) (ref k : nat)
  (w1 : World PState) : Prop :=
  inputs w1 = inputs w0
  /\ _input_widget (widget w1) = Some ref
  /\ _get_results (widget w1) = _get_results (widget w0)
  /\ watch_init w1 = watch_init w0
  /\ calls w1
     = (calls w0
        ++ repeat (value (inputs w0 ref), cursor_position (inputs w0 ref)) k)%list.

(** The provider returns, in whatever state it is, when asked for [text]
    at [cursor]. *)
Definition answers {PState : Type} (w : World PState) (text : string) (cursor : Z) : Prop :=
  forall p, exists ms p', _get_results (widget w) text cursor p = (inr ms, p').

(** ** Runs of the widget *)

(** What the host can do to the widget and its input: deliver the mount
    event, call either watch callback with any argument, ask for a render,
    or change the reactives of an [Input]. *)
Inductive Event : Type :=
| Mounts
| CursorMoves (cursor_position : Z)
| ValueChanges (value : string)
| Renders
| InputBecomes (ref : nat) (input : Input).

(** The host assigns the reactives of the input [ref]. *)
Definition set_input {PState : Type} (ref : nat) (input : Input) : M PState unit :=
  modify (fun w =>
    mkWorld (widget w) (fun r => if Nat.eqb r ref then input else inputs w r)
            (query_one w) (layers w) (watch_init w) (watchers w) (refreshes w) (provider w) (calls w)).

Definition deliver {PState : Type} (e : Event) : M PState unit :=
  match e with
  | Mounts => on_mount
  | CursorMoves cursor_position => _input_cursor_position_changed cursor_position
  | ValueChanges value => _input_value_changed value
  | Renders => bind render (fun _ => ret tt)
  | InputBecomes ref input => set_input ref input
  end.

(** The world after a sequence of events.  An event whose handler raises
    leaves the world as the handler left it, and the run goes on; a host
    that stops at the first exception sees a prefix of such a run. *)
Definition run {PState : Type} (es : list Event) (w : World PState) : World PState :=
  fold_left (fun w e => snd (deliver e w)) es w.


(** The method [m] moves every world to one related to it by [R]. *)
Definition respects {PState A : Type} (R : World PState -> World PState -> Prop)
  (m : M PState A) : Prop :=
  forall w, R w (snd (m w)).


(** The display flag is on only over a non-empty match list. *)
Definition shown_has_matches {PState : Type} (w : World PState) : Prop :=
  display (widget w) = true -> _matches (widget w) <> [].

(** The widget has no input yet, or the one it was linked to. *)
Definition input_is_linked {PState : Type} (w : World PState) : Prop :=
  _input_widget (widget w) = None \/ _input_widget (widget w) = linked_ref w.

(** From [w] to [w'] the display flag has not come on over an empty match
    list. *)
Definition keeps_shown {PState : Type} (w w' : World PState) : Prop :=
  shown_has_matches w -> shown_has_matches w'.

(** From [w] to [w'] the widget holds the same input and is linked to the
    same one. *)
Definition same_link {PState : Type} (w w' : World PState) : Prop :=
  _input_widget (widget w') = _input_widget (widget w) /\ linked_ref w' = linked_ref w.

(** ** Concrete inputs *)

(** What [Measurement.get] reports for one word of ASCII without markup,
    on a console wide enough for it: its length, both ways. *)
Definition word_get (s : string) : Rich.Measurement :=
  Rich.mkMeasurement (Z.of_nat (String.length s)) (Z.of_nat (String.length s)).

Definition hello : Candidate := mkCandidate "hello" "" "" [].
Definition help : Candidate := mkCandidate "help" "" "" [].
Definition apple : Candidate := mkCandidate "apple" ">" "fruit" [].
Definition hello_ranged : Candidate := mkCandidate "hello" "" "" [(0, 1)].

(** A host whose [watch] calls no watcher on subscription. *)
Definition init_never : string -> bool := fun _ => false.

(** A host whose [watch] calls the watcher at once on a subscription to
    [value] and not on one to [cursor_position]. *)
Definition init_on_value : string -> bool :=
  fun attribute_name => String.eqb attribute_name "value".

(** A provider without state of its own: two matches for ["hel"], one for
    ["ap"], a failure for ["boom"], nothing otherwise. *)
Definition lookup_provider : ResultProvider unit :=
  fun text _ st =>
    if String.eqb text "boom" then (inl (Raised "LookupError"), st)
    else if String.eqb text "hel" then (inr [hello; help], st)
    else if String.eqb text "ap" then (inr [apple], st)
    else (inr [], st).

(** A provider that counts its calls and answers with the count. *)
Definition counting_provider : ResultProvider nat :=
  fun _ _ n =>
    (inr (repeat hello (S n)), S n).

(** A widget just constructed on input 0, which holds [text] with the
    cursor at [cursor], on a screen with layers [screen_layers]. *)
Definition fresh_world (text : string) (cursor : Z) (screen_layers : list string)
  : World unit :=
  mkWorld (AutoComplete_init (InputRef 0) lookup_provider)
          (fun _ => mkInput text cursor) (fun _ => None) screen_layers init_on_value
          [] 0%nat tt [].

(** An attached widget showing the two matches of ["hel"], on a host that
    calls no watcher on subscription, while its input holds [text]. *)
Definition attached_world (text : string) (cursor : Z) : World unit :=
  mkWorld (mkAutoComplete lookup_provider (InputRef 0) [hello; help] (Some 0%nat) true)
          (fun _ => mkInput text cursor) (fun _ => None)
          ["default"; "textual-autocomplete"] init_never
          [(0%nat, "cursor_position", cursor_position_changed); (0%nat, "value", value_changed)]
          1%nat tt [("hel", 3)].

Definition counting_world : World nat :=
  mkWorld (AutoComplete_init (InputRef 0) counting_provider)
          (fun _ => mkInput "h" 1) (fun _ => None) ["textual-autocomplete"] init_on_value
          [] 0%nat 0%nat [].

(** A widget just constructed on the selector ["#search"], in an
    application where that selector finds no input. *)
Definition unresolved_world (screen_layers : list string) : World unit :=
  mkWorld (AutoComplete_init (Selector "#search") lookup_provider)
          (fun _ => mkInput "hel" 3) (fun _ => None) screen_layers init_on_value
          [] 0%nat tt [].

(** * Properties *)

Open Scope list_scope.

(** ** Strings and the literal scan *)

Lemma substring_drop (i n : nat) (s : string) :
  substring i n s = substring 0 n (drop i s).
Proof.
  revert s; induction i as [|i IH]; intros s.
  - reflexivity.
  - destruct s as [|c rest]; simpl.
    + destruct n; reflexivity.
    + apply IH.
Qed.

Lemma occurs_at_drop (word s : string) (i : nat) :
  occurs_at word s i <-> String.prefix word (drop i s) = true.
Proof.
  unfold occurs_at. rewrite substring_drop. symmetry. apply prefix_correct.
Qed.

Lemma prefix_of_empty (word : string) :
  word <> "" -> String.prefix word "" = false.
Proof.
  destruct word; [congruence | reflexivity].
Qed.

Lemma eqb_empty_false (word : string) :
  word <> "" -> String.eqb word "" = false.
Proof.
  intros H. apply String.eqb_neq. exact H.
Qed.

Lemma length_pos (word : string) :
  word <> "" -> (0 < String.length word)%nat.
Proof.
  destruct word; [congruence | simpl; lia].
Qed.

Section Scan.

Variable word : string.
Hypothesis word_nonempty : word <> "".

(** Every reported match is an occurrence of the word, at or after the
    characters still to be skipped. *)
Lemma finditer_from_sound (s : string) :
  forall pos skip a b,
    In (a, b) (Rich.finditer_from word s pos skip) ->
    exists i, a = (pos + i)%nat /\ b = (a + (String.length word))%nat /\ (skip <= i)%nat
              /\ String.prefix word (drop i s) = true.
Proof.
  induction s as [|c rest IH]; intros pos skip a b Hin.
  - cbn [Rich.finditer_from] in Hin.
    rewrite (eqb_empty_false word word_nonempty) in Hin. destruct Hin.
  - cbn [Rich.finditer_from] in Hin. destruct skip as [|k].
    + destruct (String.prefix word (String c rest)) eqn:E.
      * destruct Hin as [Heq | Hin].
        -- inversion Heq; subst. exists O. repeat split; try lia. exact E.
        -- destruct (IH _ _ _ _ Hin) as (i & -> & -> & _ & Hp).
           exists (S i). repeat split; try lia. exact Hp.
      * destruct (IH _ _ _ _ Hin) as (i & -> & -> & _ & Hp).
        exists (S i). repeat split; try lia. exact Hp.
    + destruct (IH _ _ _ _ Hin) as (i & -> & -> & Hk & Hp).
      exists (S i). repeat split; try lia. exact Hp.
Qed.

(** Every occurrence past the skipped characters is reported, unless it
    starts inside a reported match that begins before it. *)
Lemma finditer_from_complete (s : string) :
  forall pos skip i,
    (skip <= i)%nat ->
    String.prefix word (drop i s) = true ->
    In ((pos + i)%nat, (pos + i + (String.length word))%nat) (Rich.finditer_from word s pos skip)
    \/ exists j, (j < i < j + (String.length word))%nat
                 /\ In ((pos + j)%nat, (pos + j + (String.length word))%nat)
                       (Rich.finditer_from word s pos skip).
Proof.
  induction s as [|c rest IH]; intros pos skip i Hskip Hp.
  - assert (drop i "" = "") as E by (destruct i; reflexivity).
    rewrite E, (prefix_of_empty word word_nonempty) in Hp. discriminate.
  - cbn [Rich.finditer_from]. destruct skip as [|k].
    + destruct (String.prefix word (String c rest)) eqn:E.
      * destruct i as [|i].
        -- left. left. f_equal; lia.
        -- destruct (Nat.lt_ge_cases (S i) (String.length word)) as [Hlt | Hge].
           ++ right. exists O. split; [lia|]. left. f_equal; lia.
           ++ cbn [drop] in Hp.
              destruct (IH (S pos) (pred (String.length word)) i ltac:(lia) Hp) as [Hin | (j & Hj & Hin)].
              ** left. right.
                 replace (pos + S i)%nat with (S pos + i)%nat by lia. exact Hin.
              ** right. exists (S j). split; [lia|]. right.
                 replace (pos + S j)%nat with (S pos + j)%nat by lia. exact Hin.
      * destruct i as [|i].
        -- cbn [drop] in Hp. congruence.
        -- cbn [drop] in Hp.
           destruct (IH (S pos) O i ltac:(lia) Hp) as [Hin | (j & Hj & Hin)].
           ++ left. replace (pos + S i)%nat with (S pos + i)%nat by lia. exact Hin.
           ++ right. exists (S j). split; [lia|].
              replace (pos + S j)%nat with (S pos + j)%nat by lia. exact Hin.
    + destruct i as [|i]; [lia|]. cbn [drop] in Hp.
      destruct (IH (S pos) k i ltac:(lia) Hp) as [Hin | (j & Hj & Hin)].
      * left. replace (pos + S i)%nat with (S pos + i)%nat by lia. exact Hin.
      * right. exists (S j). split; [lia|].
        replace (pos + S j)%nat with (S pos + j)%nat by lia. exact Hin.
Qed.

Lemma finditer_sound (s : string) (a b : nat) :
  In (a, b) (Rich.finditer word s) -> b = (a + (String.length word))%nat /\ occurs_at word s a.
Proof.
  intros Hin. destruct (finditer_from_sound s _ _ _ _ Hin) as (i & -> & -> & _ & Hp).
  split; [reflexivity|]. apply occurs_at_drop. exact Hp.
Qed.

Lemma finditer_complete (s : string) (i : nat) :
  occurs_at word s i ->
  In (i, (i + (String.length word))%nat) (Rich.finditer word s)
  \/ exists j, (j < i < j + (String.length word))%nat /\ In (j, (j + (String.length word))%nat) (Rich.finditer word s).
Proof.
  intros Hocc. apply occurs_at_drop in Hocc.
  exact (finditer_from_complete s O O i (Nat.le_0_l i) Hocc).
Qed.

End Scan.

Lemma strip_control_codes_clean (s : string) :
  forallb (fun ch => negb (Rich.is_control_code ch)) (list_ascii_of_string s) = true ->
  Rich.strip_control_codes s = s.
Proof.
  induction s as [|c rest IH]; simpl; intros H.
  - reflexivity.
  - apply andb_prop in H. destruct H as [Hc Hrest].
    destruct (Rich.is_control_code c); [discriminate|].
    rewrite (IH Hrest). reflexivity.
Qed.

Lemma span_covers (style : string) (a b k : nat) (t : Rich.Text) :
  In (Rich.span_of style (a, b)) (Rich.spans t) ->
  (a <= k < b)%nat ->
  highlighted t k.
Proof.
  intros Hin Hk. exists (Rich.span_of style (a, b)). split; [exact Hin|].
  simpl. lia.
Qed.

(** ** The rendered line *)

Lemma candidate_text_plain (self : DropdownRender.t) (c : Candidate) :
  Rich.plain (DropdownRender.candidate_text self c) = Rich.strip_control_codes (main c).
Proof. reflexivity. Qed.

Lemma candidate_text_spans (self : DropdownRender.t) (c : Candidate) :
  Rich.spans (DropdownRender.candidate_text self c)
  = map (Rich.span_of "on yellow")
        (Rich.finditer (DropdownRender.filter self) (Rich.strip_control_codes (main c))).
Proof. reflexivity. Qed.

(** C3, as the code has it.  For a non-empty filter the spans of a line
    are the occurrences of the filter that a scan from the left finds
    without overlap: every span is an occurrence; every occurrence is a
    span or starts inside a span that begins before it, so its first
    character is highlighted at least; and where no two occurrences
    overlap, every occurrence is highlighted whole.  The text searched is
    [main] as [Text] holds it, which is [main] itself when it has none of
    the control characters that [Text] drops. *)
Theorem highlight_follows_leftmost_scan (self : DropdownRender.t) (c : Candidate) :
  DropdownRender.filter self <> "" ->
  let f := DropdownRender.filter self in
  let line := DropdownRender.candidate_text self c in
  Rich.plain line = Rich.strip_control_codes (main c)
  /\ (forallb (fun ch => negb (Rich.is_control_code ch)) (list_ascii_of_string (main c)) = true ->
      Rich.plain line = main c)
  /\ (forall sp, In sp (Rich.spans line) ->
        exists i, sp = Rich.span_of "on yellow" (i, (i + String.length f)%nat)
                  /\ occurs_at f (Rich.plain line) i)
  /\ (forall i, occurs_at f (Rich.plain line) i ->
        In (Rich.span_of "on yellow" (i, (i + String.length f)%nat)) (Rich.spans line)
        \/ exists j, (j < i < j + String.length f)%nat
                     /\ In (Rich.span_of "on yellow" (j, (j + String.length f)%nat))
                           (Rich.spans line))
  /\ (forall i, occurs_at f (Rich.plain line) i -> highlighted line i)
  /\ ((forall i j, occurs_at f (Rich.plain line) i -> occurs_at f (Rich.plain line) j ->
                   (i < j)%nat -> (i + String.length f <= j)%nat) ->
      forall i k, occurs_at f (Rich.plain line) i ->
                  (i <= k < i + String.length f)%nat -> highlighted line k).
Proof.
  intros Hne f line.
  assert (Hsound : forall sp, In sp (Rich.spans line) ->
            exists i, sp = Rich.span_of "on yellow" (i, (i + String.length f)%nat)
                      /\ occurs_at f (Rich.plain line) i).
  { intros sp Hin. unfold line in Hin. rewrite candidate_text_spans in Hin.
    apply in_map_iff in Hin. destruct Hin as ([a b] & <- & Hin).
    destruct (finditer_sound _ Hne _ _ _ Hin) as [-> Hocc].
    exists a. split; [reflexivity | exact Hocc]. }
  assert (Hcomplete : forall i, occurs_at f (Rich.plain line) i ->
            In (Rich.span_of "on yellow" (i, (i + String.length f)%nat)) (Rich.spans line)
            \/ exists j, (j < i < j + String.length f)%nat
                         /\ In (Rich.span_of "on yellow" (j, (j + String.length f)%nat))
                               (Rich.spans line)).
  { intros i Hocc. unfold line. rewrite candidate_text_spans.
    destruct (finditer_complete _ Hne _ _ Hocc) as [Hin | (j & Hj & Hin)].
    - left. apply in_map with (f := Rich.span_of "on yellow") in Hin. exact Hin.
    - right. exists j. split; [exact Hj|].
      apply in_map with (f := Rich.span_of "on yellow") in Hin. exact Hin. }
  pose proof (length_pos _ Hne) as Hpos. fold f in Hpos.
  repeat split.
  - intros Hclean. unfold line. rewrite candidate_text_plain.
    apply strip_control_codes_clean. exact Hclean.
  - exact Hsound.
  - exact Hcomplete.
  - intros i Hocc. destruct (Hcomplete i Hocc) as [Hin | (j & Hj & Hin)].
    + apply (span_covers _ _ _ _ _ Hin). lia.
    + apply (span_covers _ _ _ _ _ Hin). lia.
  - intros Hapart i k Hocc Hk. destruct (Hcomplete i Hocc) as [Hin | (j & Hj & Hin)].
    + apply (span_covers _ _ _ _ _ Hin). exact Hk.
    + destruct (Hsound _ Hin) as (j' & Heq & Hocc').
      assert (j' = j) as -> by (inversion Heq; lia).
      pose proof (Hapart j i Hocc' Hocc ltac:(lia)). lia.
Qed.

(** The filter ["hel"] on the candidate ["hello"]. *)
Lemma highlight_follows_leftmost_scan_witness :
  DropdownRender.filter (DropdownRender.mk "hel" [hello; help] 0) <> ""
  /\ (forall i, occurs_at "hel" "hello" i ->
        highlighted (DropdownRender.candidate_text (DropdownRender.mk "hel" [hello; help] 0) hello) i).
Proof.
  assert (H : DropdownRender.filter (DropdownRender.mk "hel" [hello; help] 0) <> "")
    by (simpl; discriminate).
  split; [exact H|].
  exact (proj1 (proj2 (proj2 (proj2 (proj2
    (highlight_follows_leftmost_scan (DropdownRender.mk "hel" [hello; help] 0) hello H)))))).
Defined.

(** C3 fails where occurrences overlap: ["aa"] occurs in ["aaa"] at offset
    1, and the character at offset 2, which that occurrence covers, is not
    highlighted. *)
Lemma overlapping_occurrence_not_highlighted :
  let self := DropdownRender.mk "aa" [mkCandidate "aaa" "" "" []] 0 in
  let line := DropdownRender.candidate_text self (mkCandidate "aaa" "" "" []) in
  DropdownRender.filter self <> ""
  /\ highlight_ranges (mkCandidate "aaa" "" "" []) = []
  /\ Rich.plain line = "aaa"
  /\ occurs_at "aa" "aaa" 1
  /\ (1 <= 2 < 1 + String.length "aa")%nat
  /\ ~ highlighted line 2.
Proof.
  cbv zeta. repeat split; try (simpl; lia); try discriminate.
  intros (sp & Hin & Hk). simpl in Hin. destruct Hin as [<- | []].
  simpl in Hk. lia.
Qed.

Lemma candidate_text_only_main (self : DropdownRender.t) (c c' : Candidate) :
  main c = main c' ->
  DropdownRender.candidate_text self c = DropdownRender.candidate_text self c'.
Proof.
  intros H. unfold DropdownRender.candidate_text. rewrite H. reflexivity.
Qed.

(** C2, on the code.  The candidate ["hello"] asks for the range [0,1);
    under the filter ["ll"] its line carries the one span [2,4) that the
    substring search finds, and not the range asked for.  In general the
    line of a candidate is the same whatever its [highlight_ranges]. *)
Theorem explicit_ranges_not_used :
  highlight_ranges hello_ranged = [(0, 1)]
  /\ Rich.spans (DropdownRender.candidate_text
                   (DropdownRender.mk "ll" [hello_ranged] 0) hello_ranged)
     = [Rich.mkSpan 2 4 "on yellow"]
  /\ forall self c ranges,
       DropdownRender.candidate_text self
         (mkCandidate (main c) (left_meta c) (right_meta c) ranges)
       = DropdownRender.candidate_text self c.
Proof.
  split; [reflexivity|]. split; [reflexivity|].
  intros self c ranges. apply candidate_text_only_main. reflexivity.
Qed.

(** C5, on the code.  The candidate [>  apple  fruit] renders as the line
    ["apple"] alone: neither meta column is in the block.  In general the
    line of a candidate is the same whatever its [left_meta] and
    [right_meta]. *)
Theorem meta_columns_not_rendered :
  left_meta apple = ">" /\ right_meta apple = "fruit"
  /\ DropdownRender.__rich_console__ (DropdownRender.mk "ap" [apple] 0)
     = Rich.mkText ("apple" ++ LF)%string [Rich.mkSpan 0 2 "on yellow"]
  /\ forall self c left right,
       DropdownRender.candidate_text self
         (mkCandidate (main c) left right (highlight_ranges c))
       = DropdownRender.candidate_text self c.
Proof.
  split; [reflexivity|]. split; [reflexivity|]. split; [reflexivity|].
  intros self c l r. apply candidate_text_only_main. reflexivity.
Qed.

(** ** The measurement *)

Lemma fold_max_spec (get : string -> Rich.Measurement) (ms : list Candidate) :
  forall acc,
    let widest :=
      fold_left (fun maximum match_ =>
                   Z.max (Rich.maximum (get (left_meta match_))
                          + Rich.maximum (get (main match_))
                          + Rich.maximum (get (right_meta match_)))
                         maximum) ms acc in
    acc <= widest
    /\ (forall c, In c ms -> combined_width get c <= widest)
    /\ (widest = acc \/ exists c, In c ms /\ combined_width get c = widest).
Proof.
  induction ms as [|m ms IH]; intros acc; cbn [fold_left].
  - repeat split; [lia | intros c [] | left; reflexivity].
  - specialize (IH (Z.max (combined_width get m) acc)).
    unfold combined_width in *. cbv zeta in IH.
    destruct IH as (Hacc & Hall & Hhit). repeat split.
    + lia.
    + intros c [<- | Hin]; [lia | exact (Hall c Hin)].
    + destruct Hhit as [Heq | (c & Hin & Heq)].
      * destruct (Z.max_spec
                    (Rich.maximum (get (left_meta m)) + Rich.maximum (get (main m))
                     + Rich.maximum (get (right_meta m))) acc) as [[_ E] | [_ E]].
        -- left. lia.
        -- right. exists m. split; [left; reflexivity | lia].
      * right. exists c. split; [right; exact Hin | exact Heq].
Qed.

(** C4, as the code has it.  The measurement is the pair of the floor, 10,
    and the widest combined width of a match, 0 when there is none: the
    maximum is at least every match's combined width, and is 0 or the
    combined width of some match.  The maximum is not raised to the floor:
    the larger of the two widths reported is [max 10 maximum], and the
    maximum itself is that value exactly when it has reached 10. *)
Theorem measure_is_floor_and_widest (self : DropdownRender.t)
  (get : string -> Rich.Measurement) :
  let m := DropdownRender.__rich_measure__ self get in
  Rich.minimum m = 10
  /\ 0 <= Rich.maximum m
  /\ (forall c, In c (DropdownRender.matches self) ->
        combined_width get c <= Rich.maximum m)
  /\ (Rich.maximum m = 0
      \/ exists c, In c (DropdownRender.matches self)
                   /\ combined_width get c = Rich.maximum m)
  /\ Z.max (Rich.minimum m) (Rich.maximum m) = Z.max 10 (Rich.maximum m)
  /\ (Rich.maximum m = Z.max 10 (Rich.maximum m) <-> 10 <= Rich.maximum m).
Proof.
  cbv zeta. unfold DropdownRender.__rich_measure__. cbn [Rich.minimum Rich.maximum].
  destruct (fold_max_spec get (DropdownRender.matches self) 0) as (H0 & Hall & Hhit).
  cbv zeta in H0, Hall, Hhit.
  repeat split; try assumption; try lia.
Qed.

(** C4 fails below the floor: for the one match ["help"], four columns
    wide, the measured maximum is 4, not [max 10 4]; and for the match
    [>  apple  fruit], eleven columns wide, the measured minimum is 10,
    not [max 10 11].  Neither reported width is [max 10 widest]. *)
Lemma measure_maximum_below_floor :
  let narrow := DropdownRender.__rich_measure__ (DropdownRender.mk "he" [help] 0) word_get in
  let wide := DropdownRender.__rich_measure__ (DropdownRender.mk "ap" [apple] 0) word_get in
  combined_width word_get help = 4
  /\ Rich.maximum narrow = 4
  /\ Rich.maximum narrow <> Z.max 10 (combined_width word_get help)
  /\ ~ 10 <= Rich.maximum narrow
  /\ combined_width word_get apple = 11
  /\ Rich.minimum wide = 10
  /\ Rich.minimum wide <> Z.max 10 (combined_width word_get apple).
Proof.
  cbv zeta. repeat split; try reflexivity; vm_compute; congruence.
Qed.

(** ** The sync *)

Section Sync.

Context {PState : Type}.
Implicit Types (w : World PState) (text : string) (cursor : Z).

Lemma visible_iff (ms : list Candidate) text :
  (0 <? Z.of_nat (List.length ms)) && negb (String.eqb text "") = true
  <-> ms <> [] /\ text <> "".
Proof.
  rewrite andb_true_iff, negb_true_iff, Z.ltb_lt, String.eqb_neq.
  destruct ms; simpl; split; intros [H1 H2]; split; try lia; congruence.
Qed.

(** What a sync does when the provider returns. *)
Lemma sync_returns w text cursor ms p :
  _get_results (widget w) text cursor (provider w) = (inr ms, p) ->
  _sync_state text cursor w
  = (Returns tt,
     mkWorld (mkAutoComplete (_get_results (widget w)) (_linked_input (widget w)) ms
                (_input_widget (widget w))
                ((0 <? Z.of_nat (List.length ms)) && negb (String.eqb text "")))
             (inputs w) (query_one w) (layers w) (watch_init w) (watchers w)
             (S (refreshes w)) p (calls w ++ [(text, cursor)])).
Proof.
  intros H. unfold _sync_state, bind, get_results. rewrite H. reflexivity.
Qed.

(** What a sync does when the provider raises. *)
Lemma sync_raises w text cursor e p :
  _get_results (widget w) text cursor (provider w) = (inl e, p) ->
  _sync_state text cursor w
  = (Raises e,
     mkWorld (widget w) (inputs w) (query_one w) (layers w) (watch_init w) (watchers w)
             (refreshes w) p (calls w ++ [(text, cursor)])).
Proof.
  intros H. unfold _sync_state, bind, get_results. rewrite H. reflexivity.
Qed.

Ltac sync_cases w text cursor :=
  let r := fresh "r" in
  let p := fresh "p" in
  let E := fresh "E" in
  destruct (_get_results (widget w) text cursor (provider w)) as [r p] eqn:E;
  destruct r as [?e | ?ms];
  [ rewrite (sync_raises _ _ _ _ _ E) | rewrite (sync_returns _ _ _ _ _ E) ].

(** A sync calls the provider once, with its own arguments. *)
Lemma sync_calls w text cursor :
  calls (snd (_sync_state text cursor w)) = calls w ++ [(text, cursor)].
Proof. sync_cases w text cursor; reflexivity. Qed.

(** A sync leaves the host and the widget's wiring alone. *)
Lemma sync_frame w text cursor :
  let w' := snd (_sync_state text cursor w) in
  inputs w' = inputs w /\ watchers w' = watchers w /\ layers w' = layers w
  /\ _input_widget (widget w') = _input_widget (widget w)
  /\ _get_results (widget w') = _get_results (widget w).
Proof. cbv zeta. sync_cases w text cursor; repeat split. Qed.

Lemma render_attached w ref :
  _input_widget (widget w) = Some ref ->
  render w = (Returns (DropdownRender.mk (value (inputs w ref)) (_matches (widget w)) 0), w).
Proof.
  intros H. unfold render, assert_input_widget, bind, gets. rewrite H. reflexivity.
Qed.

Lemma sync_all_app (before after : list (string * Z)) w :
  sync_all (before ++ after) w
  = match sync_all before w with
    | (Returns _, w') => sync_all after w'
    | (Raises e, w') => (Raises e, w')
    end.
Proof.
  revert w. induction before as [|[text cursor] before IH]; intros w.
  - reflexivity.
  - cbn [sync_all app]. unfold bind.
    destruct (_sync_state text cursor w) as [[[]|e] w1].
    + apply IH.
    + reflexivity.
Qed.

Lemma sync_all_calls (args : list (string * Z)) w :
  fst (sync_all args w) = Returns tt ->
  calls (snd (sync_all args w)) = calls w ++ args.
Proof.
  revert w. induction args as [|[text cursor] args IH]; intros w H.
  - simpl. rewrite app_nil_r. reflexivity.
  - cbn [sync_all] in *. unfold bind in *.
    pose proof (sync_calls w text cursor) as Hc.
    destruct (_sync_state text cursor w) as [[[]|e] w1]; cbn [fst snd] in *.
    + rewrite (IH w1 H), Hc, <- app_assoc. reflexivity.
    + discriminate.
Qed.

(** C1.  When the provider returns [ms], the display flag after the sync
    is true exactly when [ms] is non-empty and the synced text is
    non-empty; so an empty text hides the dropdown whatever the provider
    returned, and an empty result hides it whatever the text. *)
Theorem sync_display_iff w text cursor ms p :
  _get_results (widget w) text cursor (provider w) = (inr ms, p) ->
  let w' := snd (_sync_state text cursor w) in
  (display (widget w') = true <-> ms <> [] /\ text <> "")
  /\ (text = "" -> display (widget w') = false)
  /\ (ms = [] -> display (widget w') = false).
Proof.
  intros H. cbv zeta. rewrite (sync_returns _ _ _ _ _ H). cbn [snd widget display].
  split; [apply visible_iff|]. split.
  - intros ->. rewrite andb_false_r. reflexivity.
  - intros ->. reflexivity.
Qed.

(** C7.  When the provider raises, the sync raises the same exception, the
    widget (its matches and its display flag with it) is as before the
    call, no refresh is requested, and the provider was called once. *)
Theorem sync_provider_error_propagates w text cursor e p :
  _get_results (widget w) text cursor (provider w) = (inl e, p) ->
  let w' := snd (_sync_state text cursor w) in
  fst (_sync_state text cursor w) = Raises e
  /\ widget w' = widget w
  /\ _matches (widget w') = _matches (widget w)
  /\ display (widget w') = display (widget w)
  /\ refreshes w' = refreshes w
  /\ calls w' = calls w ++ [(text, cursor)].
Proof.
  intros H. cbv zeta. rewrite (sync_raises _ _ _ _ _ H). repeat split.
Qed.

(** C6.  A sync calls the provider exactly once, with its own arguments,
    and when the provider returns, the widget's matches are the sequence
    returned, whatever they were before.  The filter is the linked input's
    value, which the renderer reads, and every sync the widget makes is on
    that value: [on_mount] and the cursor callback pass it themselves, and
    the value callback is called by the host with the value it has just
    stored.  So after a sync on the input's value the renderer's filter is
    the text synced.  After a run of syncs that all returned, the matches
    are what the provider returned to the last of them. *)
Theorem sync_calls_once_and_replaces_matches w text cursor :
  let w' := snd (_sync_state text cursor w) in
  calls w' = calls w ++ [(text, cursor)]
  /\ inputs w' = inputs w
  /\ _input_widget (widget w') = _input_widget (widget w)
  /\ (forall ms p,
        _get_results (widget w) text cursor (provider w) = (inr ms, p) ->
        fst (_sync_state text cursor w) = Returns tt
        /\ _matches (widget w') = ms
        /\ provider w' = p
        /\ forall ref, _input_widget (widget w) = Some ref ->
             value (inputs w ref) = text ->
             fst (render w') = Returns (DropdownRender.mk text ms 0))
  /\ (forall ref ms p,
        _input_widget (widget w) = Some ref ->
        _get_results (widget w) (value (inputs w ref)) cursor (provider w) = (inr ms, p) ->
        let moved := snd (_input_cursor_position_changed cursor w) in
        calls moved = calls w ++ [(value (inputs w ref), cursor)]
        /\ _matches (widget moved) = ms
        /\ fst (render moved) = Returns (DropdownRender.mk (value (inputs w ref)) ms 0))
  /\ (forall ref ms p,
        _input_widget (widget w) = Some ref ->
        _get_results (widget w) text (cursor_position (inputs w ref)) (provider w)
        = (inr ms, p) ->
        let stored :=
          snd (set_input ref (mkInput text (cursor_position (inputs w ref))) w) in
        let edited := snd (_input_value_changed text stored) in
        calls edited = calls w ++ [(text, cursor_position (inputs w ref))]
        /\ _matches (widget edited) = ms
        /\ fst (render edited) = Returns (DropdownRender.mk text ms 0))
  /\ (forall before ms p,
        let w0 := snd (sync_all before w) in
        let w1 := snd (sync_all (before ++ [(text, cursor)]) w) in
        fst (sync_all before w) = Returns tt ->
        _get_results (widget w0) text cursor (provider w0) = (inr ms, p) ->
        fst (sync_all (before ++ [(text, cursor)]) w) = Returns tt
        /\ _matches (widget w1) = ms
        /\ calls w1 = calls w ++ before ++ [(text, cursor)]).
Proof.
  cbv zeta. split; [apply sync_calls|].
  split; [apply (sync_frame w text cursor)|].
  split; [apply (sync_frame w text cursor)|]. split; [|split; [|split]].
  - intros ms p H. rewrite (sync_returns _ _ _ _ _ H). cbn [fst snd widget _matches provider].
    repeat split. intros ref Href Hvalue. rewrite render_attached with (ref := ref).
    + cbn [fst inputs widget _matches]. rewrite Hvalue. reflexivity.
    + exact Href.
  - intros ref ms p Href H.
    unfold _input_cursor_position_changed, assert_input_widget, bind, gets, ret.
    rewrite Href. rewrite (sync_returns _ _ _ _ _ H). cbn [fst snd widget _matches calls].
    split; [reflexivity|]. split; [reflexivity|].
    rewrite render_attached with (ref := ref); [reflexivity | exact Href].
  - intros ref ms p Href H.
    set (stored := snd (set_input ref (mkInput text (cursor_position (inputs w ref))) w)).
    assert (Hs : _input_widget (widget stored) = Some ref) by exact Href.
    assert (Hi : inputs stored ref = mkInput text (cursor_position (inputs w ref))).
    { unfold stored. cbn [set_input modify snd inputs]. rewrite Nat.eqb_refl. reflexivity. }
    assert (Hg : _get_results (widget stored) text (cursor_position (inputs w ref))
                   (provider stored) = (inr ms, p)) by exact H.
    assert (Hc : calls stored = calls w) by reflexivity.
    clearbody stored.
    unfold _input_value_changed, assert_input_widget, bind, gets, ret.
    rewrite Hs, Hi. cbn [cursor_position]. rewrite (sync_returns _ _ _ _ _ Hg).
    cbn [fst snd widget _matches calls]. rewrite Hc.
    split; [reflexivity|]. split; [reflexivity|].
    rewrite render_attached with (ref := ref).
    + cbn [fst inputs widget _matches]. rewrite Hi. reflexivity.
    + exact Hs.
  - intros before ms p Hret H.
    pose proof (sync_all_calls before w Hret) as Hcalls.
    rewrite sync_all_app.
    destruct (sync_all before w) as [[[]|e] w0]; cbn [fst snd] in *; [|discriminate].
    cbn [sync_all]. unfold bind, ret. rewrite (sync_returns _ _ _ _ _ H).
    cbn [fst snd widget _matches calls]. rewrite Hcalls, app_assoc. repeat split.
Qed.

End Sync.

(** ** Mounting *)

Section Mount.

Context {PState : Type}.
Implicit Types (w : World PState).

Lemma layer_check (screen_layers : list string) :
  existsb (String.eqb "textual-autocomplete") screen_layers = true
  <-> In "textual-autocomplete" screen_layers.
Proof.
  rewrite existsb_exists. split.
  - intros (x & Hin & Heq). apply String.eqb_eq in Heq. subst x. exact Hin.
  - intros Hin. exists "textual-autocomplete". split; [exact Hin | apply String.eqb_refl].
Qed.

(** The lookup fails: [on_mount] stops there, with nothing changed. *)
Lemma on_mount_unresolved w :
  linked_ref w = None ->
  exists query, on_mount w = (Raises (NoMatches query), w).
Proof.
  unfold linked_ref, on_mount, bind, gets, app_query_one, bind, gets, raise.
  destruct (_linked_input (widget w)) as [ref | query]; [discriminate|].
  intros ->. exists query. reflexivity.
Qed.

(** The layer is missing: [on_mount] stops at the check, the input
    reference stored and nothing else done. *)
Lemma on_mount_no_layer w ref :
  linked_ref w = Some ref ->
  ~ In "textual-autocomplete" (layers w) ->
  on_mount w = (Raises layer_missing, resolved ref w).
Proof.
  intros Href Hlayer. apply (not_iff_compat (layer_check (layers w))) in Hlayer.
  apply not_true_is_false in Hlayer.
  unfold linked_ref in Href.
  unfold on_mount, bind, gets, app_query_one, bind, gets, raise, ret.
  destruct (_linked_input (widget w)) as [ref' | query].
  - injection Href as ->. cbn [set_input_widget modify with_widget layers].
    rewrite Hlayer. reflexivity.
  - rewrite Href. cbn [set_input_widget modify with_widget layers].
    rewrite Hlayer. reflexivity.
Qed.

(** C8.  Without the layer, [on_mount] raises; the error is
    [AutoCompleteError] whenever the linked input resolves (otherwise the
    lookup has already raised).  No subscription is installed, the
    provider is not called, no refresh is requested, and matches and
    display flag are untouched. *)
Theorem mount_without_layer_fails w :
  ~ In "textual-autocomplete" (layers w) ->
  let w' := snd (on_mount w) in
  (exists e, fst (on_mount w) = Raises e)
  /\ (linked_ref w <> None -> fst (on_mount w) = Raises layer_missing)
  /\ watchers w' = watchers w
  /\ calls w' = calls w
  /\ provider w' = provider w
  /\ refreshes w' = refreshes w
  /\ _matches (widget w') = _matches (widget w)
  /\ display (widget w') = display (widget w).
Proof.
  intros Hlayer. cbv zeta. destruct (linked_ref w) as [ref|] eqn:Href.
  - rewrite (on_mount_no_layer w ref Href Hlayer). cbn [fst snd].
    split; [exists layer_missing; reflexivity|]. repeat split.
  - destruct (on_mount_unresolved w Href) as (query & ->). cbn [fst snd].
    split; [exists (NoMatches query); reflexivity|].
    split; [congruence|]. repeat split.
Qed.

End Mount.

(** C10.  Two renderers with the same filter and the same matches produce
    the same block and the same measurement, whatever their
    [highlight_index]; and the renderer that [render] builds always
    carries index 0. *)
Theorem highlight_index_has_no_effect (d1 d2 : DropdownRender.t)
  (get : string -> Rich.Measurement) :
  DropdownRender.filter d1 = DropdownRender.filter d2 ->
  DropdownRender.matches d1 = DropdownRender.matches d2 ->
  DropdownRender.__rich_console__ d1 = DropdownRender.__rich_console__ d2
  /\ DropdownRender.__rich_measure__ d1 get = DropdownRender.__rich_measure__ d2 get
  /\ forall (PState : Type) (w w' : World PState) d,
       render w = (Returns d, w') -> DropdownRender.highlight_index d = 0.
Proof.
  intros Hf Hm. split; [|split].
  - unfold DropdownRender.__rich_console__. rewrite Hm. f_equal. f_equal.
    apply map_ext. intros c. unfold DropdownRender.candidate_text. rewrite Hf.
    reflexivity.
  - unfold DropdownRender.__rich_measure__. rewrite Hm. reflexivity.
  - intros PState w w' d. unfold render, assert_input_widget, bind, gets, ret, raise.
    destruct (_input_widget (widget w)).
    + intros H. injection H as <- _. reflexivity.
    + discriminate.
Qed.

(** ** The statements at concrete inputs *)

(** The renderer on the matches of ["hel"], with index 0 and with index 1. *)
Lemma highlight_index_has_no_effect_witness :
  DropdownRender.__rich_console__ (DropdownRender.mk "hel" [hello; help] 0)
  = DropdownRender.__rich_console__ (DropdownRender.mk "hel" [hello; help] 1)
  /\ DropdownRender.__rich_measure__ (DropdownRender.mk "hel" [hello; help] 0) word_get
     = DropdownRender.__rich_measure__ (DropdownRender.mk "hel" [hello; help] 1) word_get.
Proof.
  destruct (highlight_index_has_no_effect
              (DropdownRender.mk "hel" [hello; help] 0)
              (DropdownRender.mk "hel" [hello; help] 1)
              word_get eq_refl eq_refl) as (Hc & Hm & _).
  split; [exact Hc | exact Hm].
Defined.

(** The block for the matches of ["hel"]: both lines carry the span of
    their first three characters. *)
Example hel_block :
  DropdownRender.__rich_console__ (DropdownRender.mk "hel" [hello; help] 0)
  = Rich.mkText ("hello" ++ LF ++ "help" ++ LF)%string
                [Rich.mkSpan 0 3 "on yellow"; Rich.mkSpan 6 9 "on yellow"].
Proof. reflexivity. Qed.

(** A sync on ["ap"], for which the provider has one match. *)
Lemma sync_display_iff_witness :
  lookup_provider "ap" 2 tt = (inr [apple], tt)
  /\ (display (widget (snd (_sync_state "ap" 2 (attached_world "ap" 2)))) = true
      <-> [apple] <> [] /\ "ap" <> "").
Proof.
  split; [reflexivity|].
  exact (proj1 (sync_display_iff (attached_world "ap" 2) "ap" 2 [apple] tt eq_refl)).
Defined.

(** A sync on ["boom"], for which the provider raises. *)
Lemma sync_provider_error_propagates_witness :
  lookup_provider "boom" 4 tt = (inl (Raised "LookupError"), tt)
  /\ fst (_sync_state "boom" 4 (attached_world "boom" 4)) = Raises (Raised "LookupError")
  /\ widget (snd (_sync_state "boom" 4 (attached_world "boom" 4)))
     = widget (attached_world "boom" 4).
Proof.
  split; [reflexivity|].
  destruct (sync_provider_error_propagates (attached_world "boom" 4) "boom" 4
              (Raised "LookupError") tt eq_refl) as (Hr & Hw & _).
  split; [exact Hr | exact Hw].
Defined.

(** A sync on ["ap"] while the input holds ["ap"]: the matches are the
    provider's answer and the renderer's filter is the text synced.  And
    three syncs with a provider that answers its n-th call with n matches:
    after the third, the matches are the three of the last call. *)
Lemma sync_calls_once_and_replaces_matches_witness :
  lookup_provider "ap" 2 tt = (inr [apple], tt)
  /\ _input_widget (widget (attached_world "ap" 2)) = Some 0%nat
  /\ value (inputs (attached_world "ap" 2) 0%nat) = "ap"
  /\ calls (snd (_sync_state "ap" 2 (attached_world "ap" 2))) = [("hel", 3); ("ap", 2)]
  /\ _matches (widget (snd (_sync_state "ap" 2 (attached_world "ap" 2)))) = [apple]
  /\ fst (render (snd (_sync_state "ap" 2 (attached_world "ap" 2))))
     = Returns (DropdownRender.mk "ap" [apple] 0)
  /\ fst (sync_all [("a", 1); ("b", 1)] counting_world) = Returns tt
  /\ _matches (widget (snd (sync_all ([("a", 1); ("b", 1)] ++ [("c", 2)]) counting_world)))
     = [hello; hello; hello]
  /\ calls (snd (sync_all ([("a", 1); ("b", 1)] ++ [("c", 2)]) counting_world))
     = [("a", 1); ("b", 1); ("c", 2)].
Proof.
  split; [reflexivity|]. split; [reflexivity|]. split; [reflexivity|].
  destruct (sync_calls_once_and_replaces_matches (attached_world "ap" 2) "ap" 2)
    as (Hcalls & _ & _ & Hone & _).
  destruct (Hone [apple] tt eq_refl) as (_ & Hms & _ & Hfilter).
  split; [exact Hcalls|]. split; [exact Hms|].
  split; [exact (Hfilter 0%nat eq_refl eq_refl)|].
  split; [reflexivity|].
  destruct (sync_calls_once_and_replaces_matches counting_world "c" 2)
    as (_ & _ & _ & _ & _ & _ & Hrun).
  destruct (Hrun [("a", 1); ("b", 1)] [hello; hello; hello] 3%nat eq_refl eq_refl)
    as (_ & Hm & Hc).
  split; [exact Hm | exact Hc].
Defined.

(** A mount on a screen that has only the default layer. *)
Lemma mount_without_layer_fails_witness :
  ~ In "textual-autocomplete" (layers (fresh_world "hel" 3 ["default"]))
  /\ fst (on_mount (fresh_world "hel" 3 ["default"])) = Raises layer_missing
  /\ watchers (snd (on_mount (fresh_world "hel" 3 ["default"]))) = []
  /\ calls (snd (on_mount (fresh_world "hel" 3 ["default"]))) = [].
Proof.
  assert (H : ~ In "textual-autocomplete" (layers (fresh_world "hel" 3 ["default"]))).
  { simpl. intros [H | []]. discriminate. }
  split; [exact H|].
  destruct (mount_without_layer_fails (fresh_world "hel" 3 ["default"]) H)
    as (_ & He & Hw & Hc & _).
  split; [apply He; discriminate|]. split; [exact Hw | exact Hc].
Defined.

(** * Further properties of the renderer *)

(** ** More on strings *)

Lemma append_empty_r (a : string) : (a ++ "")%string = a.
Proof.
  induction a as [|c a IH]; simpl; [reflexivity | rewrite IH; reflexivity].
Qed.

Lemma append_assoc (a b c : string) :
  ((a ++ b) ++ c)%string = (a ++ (b ++ c))%string.
Proof.
  induction a as [|x a IH]; simpl; [reflexivity | rewrite IH; reflexivity].
Qed.

Lemma length_append (a b : string) :
  String.length (a ++ b) = (String.length a + String.length b)%nat.
Proof.
  induction a as [|x a IH]; simpl; [reflexivity | rewrite IH; reflexivity].
Qed.

Lemma drop_length (i : nat) (s : string) :
  String.length (drop i s) = (String.length s - i)%nat.
Proof.
  revert s; induction i as [|i IH]; intros s.
  - simpl. lia.
  - destruct s as [|c rest]; simpl; [reflexivity | apply IH].
Qed.

Lemma drop_append_r (a b : string) (i : nat) :
  drop (String.length a + i) (a ++ b) = drop i b.
Proof.
  induction a as [|x a IH]; simpl; [reflexivity | exact IH].
Qed.

Lemma prefix_length (word : string) :
  forall s, String.prefix word s = true -> (String.length word <= String.length s)%nat.
Proof.
  induction word as [|a word IH]; intros s H.
  - simpl. lia.
  - destruct s as [|b s]; simpl in H; [discriminate|].
    destruct (ascii_dec a b); [|discriminate].
    simpl. apply IH in H. lia.
Qed.

Lemma prefix_append (word : string) :
  forall s tail, String.prefix word s = true -> String.prefix word (s ++ tail) = true.
Proof.
  induction word as [|a word IH]; intros s tail H.
  - destruct (s ++ tail)%string; reflexivity.
  - destruct s as [|b s]; simpl in H; [discriminate|].
    simpl. destruct (ascii_dec a b); [|discriminate]. apply IH. exact H.
Qed.

Lemma prefix_drop_append (word : string) (Hne : word <> "") :
  forall s i tail,
    String.prefix word (drop i s) = true ->
    String.prefix word (drop i (s ++ tail)) = true.
Proof.
  induction s as [|c s IH]; intros i tail H.
  - assert (drop i "" = "") as E by (destruct i; reflexivity).
    rewrite E, (prefix_of_empty word Hne) in H. discriminate.
  - destruct i as [|i].
    + cbn [drop] in *. apply prefix_append. exact H.
    + cbn [drop append] in *. apply IH. exact H.
Qed.

(** An occurrence stays where it is when text is added after it. *)
Lemma occurs_at_append_l (word s tail : string) (i : nat) :
  word <> "" -> occurs_at word s i -> occurs_at word (s ++ tail) i.
Proof.
  intros Hne H. apply occurs_at_drop. apply occurs_at_drop in H.
  apply prefix_drop_append; assumption.
Qed.

(** An occurrence moves by the length of the text added before it. *)
Lemma occurs_at_append_r (word head s : string) (i : nat) :
  occurs_at word s i -> occurs_at word (head ++ s) (String.length head + i).
Proof.
  intros H. apply occurs_at_drop. apply occurs_at_drop in H.
  rewrite drop_append_r. exact H.
Qed.

Lemma occurs_at_fits (word s : string) (i : nat) :
  word <> "" -> occurs_at word s i -> (i + String.length word <= String.length s)%nat.
Proof.
  intros Hne H. apply occurs_at_drop in H. apply prefix_length in H.
  rewrite drop_length in H. pose proof (length_pos word Hne). lia.
Qed.

(** ** The order of the matches *)

Section ScanOrder.

Variable word : string.
Hypothesis word_nonempty : word <> "".

Lemma finditer_from_bounds (s : string) (pos skip a b : nat) :
  In (a, b) (Rich.finditer_from word s pos skip) ->
  (pos + skip <= a)%nat /\ b = (a + String.length word)%nat
  /\ (b <= pos + String.length s)%nat.
Proof.
  intros Hin.
  destruct (finditer_from_sound word word_nonempty s _ _ _ _ Hin)
    as (i & -> & -> & Hskip & Hp).
  apply prefix_length in Hp. rewrite drop_length in Hp.
  pose proof (length_pos word word_nonempty). repeat split; lia.
Qed.

(** The matches come in increasing order and none reaches into the next. *)
Lemma finditer_from_sorted (s : string) :
  forall pos skip,
    StronglySorted (fun x y : nat * nat => (snd x <= fst y)%nat)
                   (Rich.finditer_from word s pos skip).
Proof.
  induction s as [|c rest IH]; intros pos skip.
  - cbn [Rich.finditer_from]. rewrite (eqb_empty_false word word_nonempty). constructor.
  - cbn [Rich.finditer_from]. destruct skip as [|k]; [|apply IH].
    destruct (String.prefix word (String c rest)); [|apply IH].
    constructor; [apply IH|]. apply Forall_forall. intros [a b] Hin.
    apply finditer_from_bounds in Hin. pose proof (length_pos word word_nonempty).
    cbn [fst snd]. lia.
Qed.

End ScanOrder.

Lemma finditer_from_empty_word (s : string) :
  forall pos,
    Rich.finditer_from "" s pos O = map (fun i => (i, i)) (seq pos (S (String.length s))).
Proof.
  induction s as [|c rest IH]; intros pos.
  - reflexivity.
  - cbn [Rich.finditer_from String.length]. simpl String.prefix. cbv iota.
    rewrite Nat.add_0_r. cbn [pred String.length].
    rewrite IH. reflexivity.
Qed.

Lemma sorted_spans (style : string) (l : list (nat * nat)) :
  StronglySorted (fun x y : nat * nat => (snd x <= fst y)%nat) l ->
  StronglySorted (fun s1 s2 => Rich.span_end s1 <= Rich.span_start s2)
                 (map (Rich.span_of style) l).
Proof.
  induction 1 as [|x l Hs IH Hall]; cbn [map]; constructor; [exact IH|].
  apply Forall_forall. intros sp Hin. apply in_map_iff in Hin.
  destruct Hin as (y & <- & Hy). rewrite Forall_forall in Hall.
  specialize (Hall y Hy). simpl. lia.
Qed.

(** ** The spans of a line *)

(** X1.  For a non-empty filter the spans of a line come in increasing
    order, each ending where or before the next begins; each is as long as
    the filter, is not empty and lies inside the text of the line. *)
Theorem line_spans_ordered_and_inside (self : DropdownRender.t) (c : Candidate) :
  DropdownRender.filter self <> "" ->
  let line := DropdownRender.candidate_text self c in
  StronglySorted (fun s1 s2 => Rich.span_end s1 <= Rich.span_start s2) (Rich.spans line)
  /\ Forall (fun sp => 0 <= Rich.span_start sp < Rich.span_end sp
                       /\ Rich.span_end sp <= Rich.len line
                       /\ Rich.span_end sp - Rich.span_start sp
                          = Z.of_nat (String.length (DropdownRender.filter self)))
            (Rich.spans line).
Proof.
  intros Hne line. unfold line. rewrite candidate_text_spans. split.
  - apply sorted_spans. apply finditer_from_sorted. exact Hne.
  - apply Forall_forall. intros sp Hin. apply in_map_iff in Hin.
    destruct Hin as ([a b] & <- & Hin).
    apply (finditer_from_bounds _ Hne) in Hin. destruct Hin as (_ & -> & Hb).
    pose proof (length_pos _ Hne). unfold Rich.len. rewrite candidate_text_plain.
    simpl. lia.
Qed.

Lemma line_spans_ordered_and_inside_witness :
  DropdownRender.filter (DropdownRender.mk "l" [hello] 0) <> ""
  /\ StronglySorted (fun s1 s2 => Rich.span_end s1 <= Rich.span_start s2)
       (Rich.spans (DropdownRender.candidate_text (DropdownRender.mk "l" [hello] 0) hello)).
Proof.
  assert (H : DropdownRender.filter (DropdownRender.mk "l" [hello] 0) <> "")
    by (simpl; discriminate).
  split; [exact H|].
  exact (proj1 (line_spans_ordered_and_inside (DropdownRender.mk "l" [hello] 0) hello H)).
Defined.

(** X2.  With the empty filter a line gets one empty span at every offset
    of its text, the end included, so no character of it is highlighted. *)
Theorem empty_filter_highlights_nothing (self : DropdownRender.t) (c : Candidate) :
  DropdownRender.filter self = "" ->
  let line := DropdownRender.candidate_text self c in
  List.length (Rich.spans line) = S (String.length (Rich.plain line))
  /\ Forall (fun sp => Rich.span_start sp = Rich.span_end sp) (Rich.spans line)
  /\ forall k, ~ highlighted line k.
Proof.
  intros Hf line.
  assert (Hspans : Rich.spans line
                   = map (Rich.span_of "on yellow")
                       (map (fun i => (i, i))
                            (seq O (S (String.length (Rich.plain line)))))).
  { unfold line. rewrite candidate_text_spans, candidate_text_plain, Hf.
    unfold Rich.finditer. rewrite finditer_from_empty_word. reflexivity. }
  assert (Hempty : Forall (fun sp => Rich.span_start sp = Rich.span_end sp)
                          (Rich.spans line)).
  { rewrite Hspans. apply Forall_forall. intros sp Hin.
    apply in_map_iff in Hin. destruct Hin as (m & <- & Hin).
    apply in_map_iff in Hin. destruct Hin as (i & <- & _). reflexivity. }
  split; [|split].
  - rewrite Hspans. rewrite !length_map, length_seq. reflexivity.
  - exact Hempty.
  - intros k (sp & Hin & Hk). rewrite Forall_forall in Hempty.
    specialize (Hempty sp Hin). lia.
Qed.

Lemma empty_filter_highlights_nothing_witness :
  DropdownRender.filter (DropdownRender.mk "" [hello] 0) = ""
  /\ List.length (Rich.spans (DropdownRender.candidate_text
                                (DropdownRender.mk "" [hello] 0) hello)) = 6%nat
  /\ ~ highlighted (DropdownRender.candidate_text (DropdownRender.mk "" [hello] 0) hello) 0.
Proof.
  split; [reflexivity|].
  destruct (empty_filter_highlights_nothing (DropdownRender.mk "" [hello] 0) hello eq_refl)
    as (Hlen & _ & Hnone).
  split; [exact Hlen | exact (Hnone O)].
Defined.

(** X3.  For a non-empty filter a line carries no span exactly when the
    filter occurs nowhere in its text, character for character: a filter
    that differs from the text in case alone highlights nothing. *)
Theorem no_span_iff_no_occurrence (self : DropdownRender.t) (c : Candidate) :
  DropdownRender.filter self <> "" ->
  let line := DropdownRender.candidate_text self c in
  Rich.spans line = []
  <-> forall i, ~ occurs_at (DropdownRender.filter self) (Rich.plain line) i.
Proof.
  intros Hne line. unfold line. rewrite candidate_text_spans, candidate_text_plain.
  split.
  - intros Hnil i Hocc.
    destruct (finditer_complete _ Hne _ _ Hocc) as [Hin | (j & _ & Hin)];
      apply in_map with (f := Rich.span_of "on yellow") in Hin;
      rewrite Hnil in Hin; exact Hin.
  - intros Hnone.
    destruct (Rich.finditer (DropdownRender.filter self)
                (Rich.strip_control_codes (main c))) as [|[a b] rest] eqn:E.
    + reflexivity.
    + exfalso. apply (Hnone a).
      apply (finditer_sound _ Hne _ a b). rewrite E. left. reflexivity.
Qed.

Lemma no_span_iff_no_occurrence_witness :
  DropdownRender.filter (DropdownRender.mk "HEL" [hello] 0) <> ""
  /\ (Rich.spans (DropdownRender.candidate_text (DropdownRender.mk "HEL" [hello] 0) hello) = []
      <-> forall i, ~ occurs_at "HEL" "hello" i).
Proof.
  assert (H : DropdownRender.filter (DropdownRender.mk "HEL" [hello] 0) <> "")
    by (simpl; discriminate).
  split; [exact H|].
  exact (no_span_iff_no_occurrence (DropdownRender.mk "HEL" [hello] 0) hello H).
Defined.

(** ** The block *)

Lemma concat_empty_sep_cons (x : string) (xs : list string) :
  String.concat "" (x :: xs) = (x ++ String.concat "" xs)%string.
Proof.
  destruct xs as [|y ys]; cbn [String.concat].
  - rewrite append_empty_r. reflexivity.
  - reflexivity.
Qed.

Lemma join_loop_plain (pieces : list Rich.Text) :
  forall offset new_text,
    Rich.plain (Rich.join_loop pieces offset new_text)
    = (Rich.plain new_text ++ String.concat "" (map Rich.plain pieces))%string.
Proof.
  induction pieces as [|t rest IH]; intros offset new_text.
  - cbn [Rich.join_loop map String.concat]. rewrite append_empty_r. reflexivity.
  - cbn [Rich.join_loop map]. rewrite IH, concat_empty_sep_cons.
    cbn [Rich.plain]. apply append_assoc.
Qed.

Lemma interleave_concat (sep : Rich.Text) (lines : list Rich.Text) :
  String.concat "" (map Rich.plain (Rich.interleave sep lines))
  = String.concat (Rich.plain sep) (map Rich.plain lines).
Proof.
  induction lines as [|line rest IH].
  - reflexivity.
  - destruct rest as [|next rest].
    + reflexivity.
    + change (Rich.interleave sep (line :: next :: rest))
        with (line :: sep :: Rich.interleave sep (next :: rest)).
      cbn [map]. rewrite !concat_empty_sep_cons, IH. reflexivity.
Qed.

Lemma Forall_interleave (P : Rich.Text -> Prop) (sep : Rich.Text) (lines : list Rich.Text) :
  P sep -> Forall P lines -> Forall P (Rich.interleave sep lines).
Proof.
  intros Hsep. induction 1 as [|line rest Hline Hrest IH].
  - constructor.
  - destruct rest as [|next rest].
    + constructor; [exact Hline | constructor].
    + change (Rich.interleave sep (line :: next :: rest))
        with (line :: sep :: Rich.interleave sep (next :: rest)).
      constructor; [exact Hline|]. constructor; [exact Hsep | exact IH].
Qed.

(** X4.  The text of the block is the texts of the lines, in the order of
    the matches, joined by line feeds and closed by one more line feed, as
    ["\n".join(lines) + "\n"]; a block without matches is the line feed
    alone. *)
Theorem block_text_is_joined_lines (self : DropdownRender.t) :
  Rich.plain (DropdownRender.__rich_console__ self)
  = (String.concat LF (map (fun c => Rich.strip_control_codes (main c))
                           (DropdownRender.matches self)) ++ LF)%string
  /\ (DropdownRender.matches self = [] ->
      DropdownRender.__rich_console__ self = Rich.mkText LF []).
Proof.
  split.
  - unfold DropdownRender.__rich_console__, Rich.append, Rich.join.
    change (String.length LF =? 0)%nat with false. cbv iota. cbn [Rich.plain].
    rewrite join_loop_plain.
    change (Rich.iter_text (Rich.Text_init LF)
              (map (DropdownRender.candidate_text self) (DropdownRender.matches self)))
      with (Rich.interleave (Rich.Text_init LF)
              (map (DropdownRender.candidate_text self) (DropdownRender.matches self))).
    rewrite interleave_concat, map_map. reflexivity.
  - intros H. unfold DropdownRender.__rich_console__. rewrite H. reflexivity.
Qed.

Lemma shift_span_of (n i j : nat) (style : string) :
  Rich.shift (Z.of_nat n) (Rich.span_of style (i, j))
  = Rich.span_of style ((n + i)%nat, (n + j)%nat).
Proof.
  unfold Rich.shift, Rich.span_of. cbn [fst snd Rich.span_start Rich.span_end Rich.span_style].
  rewrite !Nat2Z.inj_add. reflexivity.
Qed.

Section Marks.

Variable word : string.
Hypothesis word_nonempty : word <> "".

Lemma marks_candidate_text (self : DropdownRender.t) (c : Candidate) :
  DropdownRender.filter self = word ->
  marks_word word (DropdownRender.candidate_text self c).
Proof.
  intros Hf sp Hin. rewrite candidate_text_spans, Hf in Hin.
  apply in_map_iff in Hin. destruct Hin as ([a b] & <- & Hin).
  destruct (finditer_sound _ word_nonempty _ _ _ Hin) as [-> Hocc].
  exists a. split; [reflexivity | exact Hocc].
Qed.

(** Adding a piece after a text keeps the spans on their matches: those of
    the text stay, those of the piece move by the length of the text. *)
Lemma marks_extend (acc t : Rich.Text) :
  marks_word word acc -> marks_word word t ->
  marks_word word
    (Rich.mkText (Rich.plain acc ++ Rich.plain t)
                 (Rich.spans acc ++ map (Rich.shift (Rich.len acc)) (Rich.spans t))).
Proof.
  intros Hacc Ht sp Hin. cbn [Rich.spans Rich.plain] in *.
  apply in_app_or in Hin. destruct Hin as [Hin | Hin].
  - destruct (Hacc sp Hin) as (i & -> & Hocc). exists i. split; [reflexivity|].
    apply occurs_at_append_l; assumption.
  - apply in_map_iff in Hin. destruct Hin as (sp0 & <- & Hin0).
    destruct (Ht sp0 Hin0) as (i & -> & Hocc).
    exists (String.length (Rich.plain acc) + i)%nat. split.
    + unfold Rich.len. rewrite shift_span_of. f_equal. f_equal. lia.
    + apply occurs_at_append_r. exact Hocc.
Qed.

Lemma marks_join_loop (pieces : list Rich.Text) :
  forall acc,
    Forall (marks_word word) pieces ->
    marks_word word acc ->
    marks_word word (Rich.join_loop pieces (Rich.len acc) acc).
Proof.
  induction pieces as [|t rest IH]; intros acc Hall Hacc.
  - exact Hacc.
  - inversion Hall as [|? ? Ht Hrest]; subst. cbn [Rich.join_loop].
    pose proof (marks_extend acc t Hacc Ht) as Hnext.
    specialize (IH _ Hrest Hnext).
    replace (Rich.len acc + Rich.len t)
      with (Rich.len (Rich.mkText (Rich.plain acc ++ Rich.plain t)
                        (Rich.spans acc
                         ++ map (Rich.shift (Rich.len acc)) (Rich.spans t)))).
    + exact IH.
    + unfold Rich.len. cbn [Rich.plain]. rewrite length_append. lia.
Qed.

End Marks.

(** X5.  For a non-empty filter every span of the block sits on a match of
    the filter in the text of the block: the spans of each line are moved
    by the length of the lines and line feeds before it, and reading the
    block's text under any span gives the filter back. *)
Theorem block_spans_mark_filter (self : DropdownRender.t) :
  DropdownRender.filter self <> "" ->
  forall sp, In sp (Rich.spans (DropdownRender.__rich_console__ self)) ->
    exists i,
      sp = Rich.span_of "on yellow"
             (i, (i + String.length (DropdownRender.filter self))%nat)
      /\ substring i (String.length (DropdownRender.filter self))
                   (Rich.plain (DropdownRender.__rich_console__ self))
         = DropdownRender.filter self.
Proof.
  intros Hne.
  assert (Hjoin : marks_word (DropdownRender.filter self)
            (Rich.join (Rich.Text_init LF)
               (map (DropdownRender.candidate_text self) (DropdownRender.matches self)))).
  { unfold Rich.join.
    change (Rich.iter_text (Rich.Text_init LF)
              (map (DropdownRender.candidate_text self) (DropdownRender.matches self)))
      with (Rich.interleave (Rich.Text_init LF)
              (map (DropdownRender.candidate_text self) (DropdownRender.matches self))).
    apply (marks_join_loop _ Hne _ (Rich.mkText "" [])).
    - apply Forall_interleave.
      + intros sp [].
      + apply Forall_forall. intros t Hin. apply in_map_iff in Hin.
        destruct Hin as (c & <- & _). apply marks_candidate_text; [exact Hne | reflexivity].
    - intros sp []. }
  intros sp Hin. unfold DropdownRender.__rich_console__, Rich.append in *.
  change (String.length LF =? 0)%nat with false in *. cbv iota in *.
  cbn [Rich.spans Rich.plain] in *.
  destruct (Hjoin sp Hin) as (i & -> & Hocc). exists i. split; [reflexivity|].
  apply (occurs_at_append_l _ _ _ _ Hne Hocc).
Qed.

Lemma block_spans_mark_filter_witness :
  DropdownRender.filter (DropdownRender.mk "hel" [hello; help] 0) <> ""
  /\ exists i,
       Rich.mkSpan 6 9 "on yellow" = Rich.span_of "on yellow" (i, (i + 3)%nat)
       /\ substring i 3 (Rich.plain (DropdownRender.__rich_console__
                                       (DropdownRender.mk "hel" [hello; help] 0)))
          = "hel".
Proof.
  assert (H : DropdownRender.filter (DropdownRender.mk "hel" [hello; help] 0) <> "")
    by (simpl; discriminate).
  split; [exact H|].
  apply (block_spans_mark_filter (DropdownRender.mk "hel" [hello; help] 0) H
           (Rich.mkSpan 6 9 "on yellow")).
  right. left. reflexivity.
Defined.

(** ** More on the measurement *)

Lemma fold_max_from (get : string -> Rich.Measurement) (ms : list Candidate) :
  forall acc,
    fold_left (fun maximum match_ =>
                 Z.max (Rich.maximum (get (left_meta match_))
                        + Rich.maximum (get (main match_))
                        + Rich.maximum (get (right_meta match_)))
                       maximum) ms acc
    = Z.max acc
        (fold_left (fun maximum match_ =>
                      Z.max (Rich.maximum (get (left_meta match_))
                             + Rich.maximum (get (main match_))
                             + Rich.maximum (get (right_meta match_)))
                            maximum) ms 0)
    \/ acc < 0.
Proof.
  induction ms as [|m ms IH]; intros acc; cbn [fold_left].
  - destruct (Z.lt_ge_cases acc 0); [right; assumption | left; lia].
  - destruct (Z.lt_ge_cases acc 0) as [Hneg | Hpos]; [right; exact Hneg | left].
    destruct (IH (Z.max (Rich.maximum (get (left_meta m)) + Rich.maximum (get (main m))
                         + Rich.maximum (get (right_meta m))) acc)) as [-> | Hn]; [|lia].
    destruct (IH (Z.max (Rich.maximum (get (left_meta m)) + Rich.maximum (get (main m))
                         + Rich.maximum (get (right_meta m))) 0)) as [-> | Hn]; lia.
Qed.

(** X6.  Measuring two match lists put together gives floor 10 and, as
    maximum, the larger of the two maxima: more matches never narrow the
    dropdown, and a match no wider than those already there changes
    nothing. *)
Theorem measure_of_appended_matches (f1 f2 f : string) (i1 i2 i : Z)
  (ms1 ms2 : list Candidate) (get : string -> Rich.Measurement) :
  DropdownRender.__rich_measure__ (DropdownRender.mk f (ms1 ++ ms2) i) get
  = Rich.mkMeasurement 10
      (Z.max (Rich.maximum (DropdownRender.__rich_measure__ (DropdownRender.mk f1 ms1 i1) get))
             (Rich.maximum (DropdownRender.__rich_measure__ (DropdownRender.mk f2 ms2 i2) get))).
Proof.
  unfold DropdownRender.__rich_measure__. cbn [DropdownRender.matches Rich.maximum].
  rewrite fold_left_app. f_equal.
  destruct (fold_max_spec get ms1 0) as (H0 & _). cbv zeta in H0.
  destruct (fold_max_from get ms2
              (fold_left (fun maximum match_ =>
                 Z.max (Rich.maximum (get (left_meta match_))
                        + Rich.maximum (get (main match_))
                        + Rich.maximum (get (right_meta match_)))
                       maximum) ms1 0)) as [E | Hneg]; [exact E | lia].
Qed.

Lemma fold_max_permutation (get : string -> Rich.Measurement) (ms1 ms2 : list Candidate) :
  Permutation ms1 ms2 ->
  forall acc,
    fold_left (fun maximum match_ =>
                 Z.max (Rich.maximum (get (left_meta match_))
                        + Rich.maximum (get (main match_))
                        + Rich.maximum (get (right_meta match_)))
                       maximum) ms1 acc
    = fold_left (fun maximum match_ =>
                   Z.max (Rich.maximum (get (left_meta match_))
                          + Rich.maximum (get (main match_))
                          + Rich.maximum (get (right_meta match_)))
                         maximum) ms2 acc.
Proof.
  induction 1 as [|x l l' _ IH|x y l|l l' l'' _ IH1 _ IH2]; intros acc; cbn [fold_left].
  - reflexivity.
  - apply IH.
  - f_equal. lia.
  - rewrite IH1. apply IH2.
Qed.

(** X7.  The measurement does not depend on the order of the matches. *)
Theorem measure_ignores_order (self1 self2 : DropdownRender.t)
  (get : string -> Rich.Measurement) :
  Permutation (DropdownRender.matches self1) (DropdownRender.matches self2) ->
  DropdownRender.__rich_measure__ self1 get = DropdownRender.__rich_measure__ self2 get.
Proof.
  intros Hperm. unfold DropdownRender.__rich_measure__. f_equal.
  apply fold_max_permutation. exact Hperm.
Qed.

Lemma measure_ignores_order_witness :
  Permutation [hello; apple] [apple; hello]
  /\ DropdownRender.__rich_measure__ (DropdownRender.mk "a" [hello; apple] 0) word_get
     = DropdownRender.__rich_measure__ (DropdownRender.mk "b" [apple; hello] 0) word_get.
Proof.
  assert (H : Permutation [hello; apple] [apple; hello]) by apply perm_swap.
  split; [exact H|].
  exact (measure_ignores_order (DropdownRender.mk "a" [hello; apple] 0)
           (DropdownRender.mk "b" [apple; hello] 0) word_get H).
Defined.

(** * Further properties of the widget *)

Section Methods.

Context {PState : Type}.
Implicit Types (w : World PState) (text : string) (cursor : Z).

Lemma render_unattached w :
  _input_widget (widget w) = None ->
  render w = (Raises (AssertionError "input_widget set in on_mount"), w).
Proof.
  intros H. unfold render, assert_input_widget, bind, gets, raise. rewrite H. reflexivity.
Qed.


Lemma cursor_callback_attached w ref cursor :
  _input_widget (widget w) = Some ref ->
  _input_cursor_position_changed cursor w = _sync_state (value (inputs w ref)) cursor w.
Proof.
  intros H. unfold _input_cursor_position_changed, assert_input_widget, bind, gets, ret.
  rewrite H. reflexivity.
Qed.

Lemma value_callback_attached w ref text :
  _input_widget (widget w) = Some ref ->
  _input_value_changed text w = _sync_state text (cursor_position (inputs w ref)) w.
Proof.
  intros H. unfold _input_value_changed, assert_input_widget, bind, gets, ret.
  rewrite H. reflexivity.
Qed.

Lemma cursor_callback_unattached w cursor :
  _input_widget (widget w) = None ->
  _input_cursor_position_changed cursor w
  = (Raises (AssertionError "input_widget set in on_mount"), w).
Proof.
  intros H. unfold _input_cursor_position_changed, assert_input_widget, bind, gets, raise.
  rewrite H. reflexivity.
Qed.

Lemma value_callback_unattached w text :
  _input_widget (widget w) = None ->
  _input_value_changed text w
  = (Raises (AssertionError "input_widget set in on_mount"), w).
Proof.
  intros H. unfold _input_value_changed, assert_input_widget, bind, gets, raise.
  rewrite H. reflexivity.
Qed.

(** X8.  When the widget was given a selector that the application cannot
    resolve, [on_mount] raises the lookup's error and nothing has happened:
    no reference stored, no subscription, no provider call, whether or not
    the screen has the layer; a render after it still fails its
    assertion. *)
Theorem mount_with_unknown_selector w query :
  _linked_input (widget w) = Selector query ->
  query_one w query = None ->
  _input_widget (widget w) = None ->
  on_mount w = (Raises (NoMatches query), w)
  /\ fst (render (snd (on_mount w)))
     = Raises (AssertionError "input_widget set in on_mount").
Proof.
  intros Hsel Hq Hnone.
  assert (E : on_mount w = (Raises (NoMatches query), w)).
  { unfold on_mount, bind, gets, app_query_one, bind, gets, raise.
    rewrite Hsel, Hq. reflexivity. }
  split; [exact E|]. rewrite E. cbn [snd]. rewrite (render_unattached w Hnone).
  reflexivity.
Qed.

(** X9.  A mount that fails on the missing layer has already stored the
    input reference: the widget is left half attached, and a render after
    it returns, with the input's value as filter and the matches as they
    were, instead of failing its assertion. *)
Theorem failed_mount_leaves_input_resolved w ref :
  ~ In "textual-autocomplete" (layers w) ->
  linked_ref w = Some ref ->
  let w' := snd (on_mount w) in
  _input_widget (widget w') = Some ref
  /\ render w'
     = (Returns (DropdownRender.mk (value (inputs w ref)) (_matches (widget w)) 0), w').
Proof.
  intros Hlayer Href. cbv zeta. rewrite (on_mount_no_layer w ref Href Hlayer). cbn [snd].
  split; [reflexivity|]. rewrite render_attached with (ref := ref); reflexivity.
Qed.

(** X10.  Before the widget has its input, [render] and both watch
    callbacks fail their assertion and do nothing else: the provider is
    not called and the world is unchanged. *)
Theorem unattached_methods_only_assert w text cursor :
  _input_widget (widget w) = None ->
  render w = (Raises (AssertionError "input_widget set in on_mount"), w)
  /\ _input_cursor_position_changed cursor w
     = (Raises (AssertionError "input_widget set in on_mount"), w)
  /\ _input_value_changed text w
     = (Raises (AssertionError "input_widget set in on_mount"), w).
Proof.
  intros H. split; [|split].
  - apply render_unattached. exact H.
  - apply cursor_callback_unattached. exact H.
  - apply value_callback_unattached. exact H.
Qed.

(** X11.  On an attached widget the cursor callback asks the provider
    once, for the input's current value and the new cursor position, and
    the value callback once, for the new value and the input's current
    cursor position.  After a cursor callback that returns, the renderer's
    filter is the very text the matches were asked for. *)
Theorem callbacks_sync_with_the_input w ref text cursor :
  _input_widget (widget w) = Some ref ->
  let by_cursor := snd (_input_cursor_position_changed cursor w) in
  let by_value := snd (_input_value_changed text w) in
  calls by_cursor = calls w ++ [(value (inputs w ref), cursor)]
  /\ calls by_value = calls w ++ [(text, cursor_position (inputs w ref))]
  /\ (forall ms p,
        _get_results (widget w) (value (inputs w ref)) cursor (provider w) = (inr ms, p) ->
        render by_cursor
        = (Returns (DropdownRender.mk (value (inputs w ref)) ms 0), by_cursor))
  /\ (forall ms p,
        _get_results (widget w) text (cursor_position (inputs w ref)) (provider w)
        = (inr ms, p) ->
        _matches (widget by_value) = ms
        /\ (display (widget by_value) = true <-> ms <> [] /\ text <> "")).
Proof.
  intros H. cbv zeta.
  rewrite (cursor_callback_attached w ref cursor H), (value_callback_attached w ref text H).
  split; [apply sync_calls|]. split; [apply sync_calls|]. split.
  - intros ms p E. rewrite (sync_returns _ _ _ _ _ E). cbn [snd].
    rewrite render_attached with (ref := ref); [reflexivity | exact H].
  - intros ms p E. rewrite (sync_returns _ _ _ _ _ E). cbn [snd widget _matches display].
    split; [reflexivity | apply visible_iff].
Qed.

(** X12.  Syncing twice on the same text and cursor, with a provider that
    gives the same answer both times, leaves the widget after the second
    sync as it was after the first; the provider has been called twice and
    two refreshes requested. *)
Theorem sync_twice_same_widget w text cursor ms p p' :
  _get_results (widget w) text cursor (provider w) = (inr ms, p) ->
  _get_results (widget w) text cursor p = (inr ms, p') ->
  let w1 := snd (_sync_state text cursor w) in
  let w2 := snd (_sync_state text cursor w1) in
  fst (_sync_state text cursor w1) = Returns tt
  /\ widget w2 = widget w1
  /\ calls w2 = calls w ++ [(text, cursor); (text, cursor)]
  /\ refreshes w2 = S (S (refreshes w)).
Proof.
  intros E1 E2. cbv zeta. rewrite (sync_returns _ _ _ _ _ E1). cbn [snd].
  match goal with
  | |- context [_sync_state text cursor ?w1] =>
      rewrite (sync_returns w1 text cursor ms p' E2)
  end. cbn [fst snd widget calls refreshes
    _get_results _linked_input _input_widget _matches display].
  rewrite <- app_assoc. repeat split.
Qed.

(** X13.  When a sync returns and the next one fails in the provider, the
    failure surfaces and the widget keeps the matches and the display flag
    of the sync that returned: the dropdown goes on showing the results of
    the earlier text. *)
Theorem failed_sync_keeps_earlier_matches w text cursor text' cursor' ms p e p' :
  _get_results (widget w) text cursor (provider w) = (inr ms, p) ->
  _get_results (widget w) text' cursor' p = (inl e, p') ->
  let w1 := snd (_sync_state text cursor w) in
  let w2 := snd (_sync_state text' cursor' w1) in
  fst (_sync_state text' cursor' w1) = Raises e
  /\ _matches (widget w2) = ms
  /\ (display (widget w2) = true <-> ms <> [] /\ text <> "")
  /\ calls w2 = calls w ++ [(text, cursor); (text', cursor')].
Proof.
  intros E1 E2. cbv zeta. rewrite (sync_returns _ _ _ _ _ E1). cbn [snd].
  match goal with
  | |- context [_sync_state text' cursor' ?w1] =>
      rewrite (sync_raises w1 text' cursor' e p' E2)
  end. cbn [fst snd widget calls _matches display].
  rewrite <- app_assoc. split; [reflexivity|]. split; [reflexivity|].
  split; [apply visible_iff | reflexivity].
Qed.

End Methods.


(** ** The further statements at concrete inputs *)

(** A mount on the selector ["#search"], which nothing answers to, on a
    screen that has the layer. *)
Lemma mount_with_unknown_selector_witness :
  _linked_input (widget (unresolved_world ["textual-autocomplete"])) = Selector "#search"
  /\ query_one (unresolved_world ["textual-autocomplete"]) "#search" = None
  /\ _input_widget (widget (unresolved_world ["textual-autocomplete"])) = None
  /\ on_mount (unresolved_world ["textual-autocomplete"])
     = (Raises (NoMatches "#search"), unresolved_world ["textual-autocomplete"]).
Proof.
  split; [reflexivity|]. split; [reflexivity|]. split; [reflexivity|].
  exact (proj1 (mount_with_unknown_selector (unresolved_world ["textual-autocomplete"])
                  "#search" eq_refl eq_refl eq_refl)).
Defined.

(** A mount on a screen with the default layer only, then a render. *)
Lemma failed_mount_leaves_input_resolved_witness :
  ~ In "textual-autocomplete" (layers (fresh_world "hel" 3 ["default"]))
  /\ linked_ref (fresh_world "hel" 3 ["default"]) = Some 0%nat
  /\ fst (render (snd (on_mount (fresh_world "hel" 3 ["default"]))))
     = Returns (DropdownRender.mk "hel" [] 0).
Proof.
  assert (H : ~ In "textual-autocomplete" (layers (fresh_world "hel" 3 ["default"]))).
  { simpl. intros [H | []]. discriminate. }
  split; [exact H|]. split; [reflexivity|].
  destruct (failed_mount_leaves_input_resolved (fresh_world "hel" 3 ["default"]) 0%nat
              H eq_refl) as (_ & Hr).
  rewrite Hr. reflexivity.
Defined.

(** Render and callbacks on a widget that was never mounted. *)
Lemma unattached_methods_only_assert_witness :
  _input_widget (widget (fresh_world "hel" 3 ["textual-autocomplete"])) = None
  /\ _input_value_changed "help" (fresh_world "hel" 3 ["textual-autocomplete"])
     = (Raises (AssertionError "input_widget set in on_mount"),
        fresh_world "hel" 3 ["textual-autocomplete"]).
Proof.
  split; [reflexivity|].
  exact (proj2 (proj2 (unattached_methods_only_assert
                         (fresh_world "hel" 3 ["textual-autocomplete"]) "help" 4 eq_refl))).
Defined.

(** The cursor moves to 1 and the value changes to ["ap"] while the input
    holds ["hel"] with the cursor at 3. *)
Lemma callbacks_sync_with_the_input_witness :
  _input_widget (widget (attached_world "hel" 3)) = Some 0%nat
  /\ calls (snd (_input_cursor_position_changed 1 (attached_world "hel" 3)))
     = [("hel", 3); ("hel", 1)]
  /\ calls (snd (_input_value_changed "ap" (attached_world "hel" 3)))
     = [("hel", 3); ("ap", 3)].
Proof.
  split; [reflexivity|].
  destruct (callbacks_sync_with_the_input (attached_world "hel" 3) 0%nat "ap" 1 eq_refl)
    as (Hc & Hv & _).
  split; [exact Hc | exact Hv].
Defined.

(** Two syncs on ["ap"]. *)
Lemma sync_twice_same_widget_witness :
  lookup_provider "ap" 2 tt = (inr [apple], tt)
  /\ widget (snd (_sync_state "ap" 2 (snd (_sync_state "ap" 2 (attached_world "ap" 2)))))
     = widget (snd (_sync_state "ap" 2 (attached_world "ap" 2))).
Proof.
  split; [reflexivity|].
  destruct (sync_twice_same_widget (attached_world "ap" 2) "ap" 2 [apple] tt tt
              eq_refl eq_refl) as (_ & Hw & _).
  exact Hw.
Defined.

(** A sync on ["ap"], then one on ["boom"], for which the provider raises. *)
Lemma failed_sync_keeps_earlier_matches_witness :
  lookup_provider "ap" 2 tt = (inr [apple], tt)
  /\ lookup_provider "boom" 4 tt = (inl (Raised "LookupError"), tt)
  /\ _matches (widget (snd (_sync_state "boom" 4
                              (snd (_sync_state "ap" 2 (attached_world "boom" 4))))))
     = [apple].
Proof.
  split; [reflexivity|]. split; [reflexivity|].
  destruct (failed_sync_keeps_earlier_matches (attached_world "boom" 4) "ap" 2 "boom" 4
              [apple] tt (Raised "LookupError") tt eq_refl eq_refl) as (_ & Hm & _).
  exact Hm.
Defined.

(** ** The spans of the lines in the block *)

Lemma join_loop_keeps_spans (pieces : list Rich.Text) :
  forall offset new_text sp,
    In sp (Rich.spans new_text) ->
    In sp (Rich.spans (Rich.join_loop pieces offset new_text)).
Proof.
  induction pieces as [|t rest IH]; intros offset new_text sp Hin.
  - exact Hin.
  - cbn [Rich.join_loop]. apply IH. cbn [Rich.spans]. apply in_or_app. left. exact Hin.
Qed.

(** The spans of a piece are in the joined text, moved by the length of
    the pieces before it. *)
Lemma join_loop_carries (before : list Rich.Text) :
  forall offset new_text t after sp,
    In sp (Rich.spans t) ->
    In (Rich.shift (offset + fold_right (fun x n => Rich.len x + n) 0 before) sp)
       (Rich.spans (Rich.join_loop (before ++ t :: after) offset new_text)).
Proof.
  induction before as [|b before IH]; intros offset new_text t after sp Hin.
  - cbn [app fold_right Rich.join_loop]. rewrite Z.add_0_r.
    apply join_loop_keeps_spans. cbn [Rich.spans]. apply in_or_app. right.
    apply in_map. exact Hin.
  - cbn [app fold_right Rich.join_loop]. rewrite Z.add_assoc. apply IH. exact Hin.
Qed.

Lemma interleave_app_cons (sep : Rich.Text) (xs : list Rich.Text) :
  forall t ys,
    Rich.interleave sep (xs ++ t :: ys)
    = flat_map (fun l => [l; sep]) xs ++ Rich.interleave sep (t :: ys).
Proof.
  induction xs as [|x xs IH]; intros t ys.
  - reflexivity.
  - cbn [app flat_map]. rewrite <- IH.
    destruct (xs ++ t :: ys) as [|y rest] eqn:E.
    + destruct xs; discriminate.
    + reflexivity.
Qed.

Lemma interleave_head (sep t : Rich.Text) (ys : list Rich.Text) :
  exists tail, Rich.interleave sep (t :: ys) = t :: tail.
Proof.
  destruct ys as [|y ys].
  - exists []. reflexivity.
  - exists (sep :: Rich.interleave sep (y :: ys)). reflexivity.
Qed.

Lemma lines_before_length (self : DropdownRender.t) (before : list Candidate) :
  fold_right (fun x n => Rich.len x + n) 0
    (flat_map (fun l => [l; Rich.Text_init LF])
              (map (DropdownRender.candidate_text self) before))
  = Z.of_nat (line_offset before).
Proof.
  induction before as [|c before IH].
  - reflexivity.
  - cbn [map flat_map app fold_right]. rewrite IH.
    unfold line_offset. cbn [map]. unfold list_sum. cbn [fold_right].
    unfold Rich.len at 1 2.
    rewrite candidate_text_plain. change (Rich.plain (Rich.Text_init LF)) with LF.
    change (String.length LF) with 1%nat. lia.
Qed.

(** The spans of the line of a match are in the block, moved by the offset
    of the line. *)
Lemma block_carries_line_spans (self : DropdownRender.t)
  (before : list Candidate) (c : Candidate) (after : list Candidate) (sp : Rich.Span) :
  DropdownRender.matches self = before ++ c :: after ->
  In sp (Rich.spans (DropdownRender.candidate_text self c)) ->
  In (Rich.shift (Z.of_nat (line_offset before)) sp)
     (Rich.spans (DropdownRender.__rich_console__ self)).
Proof.
  intros Hms Hin. unfold DropdownRender.__rich_console__, Rich.append.
  change (String.length LF =? 0)%nat with false. cbv iota. cbn [Rich.spans].
  unfold Rich.join.
  change (Rich.iter_text (Rich.Text_init LF)
            (map (DropdownRender.candidate_text self) (DropdownRender.matches self)))
    with (Rich.interleave (Rich.Text_init LF)
            (map (DropdownRender.candidate_text self) (DropdownRender.matches self))).
  rewrite Hms, map_app. cbn [map]. rewrite interleave_app_cons.
  destruct (interleave_head (Rich.Text_init LF) (DropdownRender.candidate_text self c)
              (map (DropdownRender.candidate_text self) after)) as (tail & ->).
  rewrite <- (lines_before_length self before).
  apply (join_loop_carries _ 0 (Rich.mkText "" []) _ tail sp Hin).
Qed.

(** An occurrence of the filter in the line of a match is highlighted in
    the block, at its first character at least. *)
Lemma block_highlights_occurrence (self : DropdownRender.t)
  (before : list Candidate) (c : Candidate) (after : list Candidate) (i : nat) :
  DropdownRender.filter self <> "" ->
  DropdownRender.matches self = before ++ c :: after ->
  occurs_at (DropdownRender.filter self) (Rich.strip_control_codes (main c)) i ->
  highlighted (DropdownRender.__rich_console__ self) (line_offset before + i).
Proof.
  intros Hne Hms Hocc. pose proof (length_pos _ Hne) as Hpos.
  destruct (finditer_complete _ Hne _ _ Hocc) as [Hin | (j & Hj & Hin)];
    apply in_map with (f := Rich.span_of "on yellow") in Hin;
    rewrite <- candidate_text_spans with (c := c) in Hin;
    apply (block_carries_line_spans self before c after _ Hms) in Hin;
    rewrite shift_span_of in Hin;
    apply (span_covers _ _ _ _ _ Hin); lia.
Qed.

(** X17.  For a non-empty filter, every occurrence of the filter in the
    line of any match is highlighted in the block at its first character
    at least, at the offset of the line (the lengths of the lines before
    it and one line feed after each) plus the offset in the line; and the
    spans of each line are in the block, moved by the offset of the
    line. *)
Theorem block_highlights_every_line (self : DropdownRender.t)
  (before : list Candidate) (c : Candidate) (after : list Candidate) :
  DropdownRender.filter self <> "" ->
  DropdownRender.matches self = before ++ c :: after ->
  (forall sp, In sp (Rich.spans (DropdownRender.candidate_text self c)) ->
     In (Rich.shift (Z.of_nat (line_offset before)) sp)
        (Rich.spans (DropdownRender.__rich_console__ self)))
  /\ (forall i, occurs_at (DropdownRender.filter self)
                          (Rich.strip_control_codes (main c)) i ->
        highlighted (DropdownRender.__rich_console__ self) (line_offset before + i)).
Proof.
  intros Hne Hms. split.
  - intros sp Hin. exact (block_carries_line_spans self before c after sp Hms Hin).
  - intros i Hocc. exact (block_highlights_occurrence self before c after i Hne Hms Hocc).
Qed.

Lemma block_highlights_every_line_witness :
  DropdownRender.filter (DropdownRender.mk "hel" [hello; help] 0) <> ""
  /\ DropdownRender.matches (DropdownRender.mk "hel" [hello; help] 0) = [hello] ++ help :: []
  /\ (forall i, occurs_at "hel" "help" i ->
        highlighted (DropdownRender.__rich_console__ (DropdownRender.mk "hel" [hello; help] 0))
                    (6 + i)).
Proof.
  assert (H : DropdownRender.filter (DropdownRender.mk "hel" [hello; help] 0) <> "")
    by (simpl; discriminate).
  split; [exact H|]. split; [reflexivity|].
  exact (proj2 (block_highlights_every_line (DropdownRender.mk "hel" [hello; help] 0)
                  [hello] help [] H eq_refl)).
Defined.

(** * The mount on a screen that has the layer *)

Section MountSync.

Context {PState : Type}.
Implicit Types (w : World PState).

Lemma same_callback_eq (a b : Callback) : same_callback a b = true -> a = b.
Proof. destruct a, b; simpl; congruence. Qed.

Lemma same_watcher_eq (x y : nat * string * Callback) : same_watcher x y = true -> x = y.
Proof.
  destruct x as [[o1 a1] c1], y as [[o2 a2] c2]. unfold same_watcher. cbn [fst snd].
  intros H. apply andb_prop in H. destruct H as [H Hc].
  apply andb_prop in H. destruct H as [Ho Ha].
  apply Nat.eqb_eq in Ho. apply String.eqb_eq in Ha. apply same_callback_eq in Hc.
  congruence.
Qed.

Lemma bind_returns {A B : Type} (m : M PState A) (k : A -> M PState B) w a w' :
  m w = (Returns a, w') -> bind m k w = k a w'.
Proof. intros H. unfold bind. rewrite H. reflexivity. Qed.

Lemma bind_raises {A B : Type} (m : M PState A) (k : A -> M PState B) w e w' :
  m w = (Raises e, w') -> bind m k w = (Raises e, w').
Proof. intros H. unfold bind. rewrite H. reflexivity. Qed.

(** Registering changes the watchers alone. *)
Lemma register_frame w obj attr cb :
  widget (register obj attr cb w) = widget w
  /\ inputs (register obj attr cb w) = inputs w
  /\ watch_init (register obj attr cb w) = watch_init w
  /\ refreshes (register obj attr cb w) = refreshes w
  /\ provider (register obj attr cb w) = provider w
  /\ calls (register obj attr cb w) = calls w.
Proof.
  unfold register.
  destruct (existsb (same_watcher (obj, attr, cb)) (watchers w)); repeat split.
Qed.

Lemma register_in w obj attr cb :
  In (obj, attr, cb) (watchers (register obj attr cb w)).
Proof.
  unfold register.
  destruct (existsb (same_watcher (obj, attr, cb)) (watchers w)) eqn:E.
  - apply existsb_exists in E. destruct E as (y & Hy & Hsame).
    apply same_watcher_eq in Hsame. subst y. exact Hy.
  - cbn [watchers]. apply in_or_app. right. left. reflexivity.
Qed.

Lemma register_keeps w obj attr cb x :
  In x (watchers w) -> In x (watchers (register obj attr cb w)).
Proof.
  intros Hx. unfold register.
  destruct (existsb (same_watcher (obj, attr, cb)) (watchers w)); [exact Hx|].
  cbn [watchers]. apply in_or_app. left. exact Hx.
Qed.

(** Called by the host, either watcher of an attached widget syncs on the
    input's value and cursor position. *)
Lemma call_watcher_attached w ref cb :
  _input_widget (widget w) = Some ref ->
  call_watcher ref cb w
  = _sync_state (value (inputs w ref)) (cursor_position (inputs w ref)) w.
Proof.
  intros H. destruct cb;
    unfold call_watcher, _input_cursor_position_changed, _input_value_changed,
           assert_input_widget, bind, gets, ret;
    rewrite H; reflexivity.
Qed.

Lemma watch_attached w ref attr cb :
  _input_widget (widget w) = Some ref ->
  watch ref attr cb w
  = if watch_init w attr
    then _sync_state (value (inputs w ref)) (cursor_position (inputs w ref))
                     (register ref attr cb w)
    else (Returns tt, register ref attr cb w).
Proof.
  intros H. destruct (register_frame w ref attr cb) as (Hw & Hi & Hinit & _).
  unfold watch, bind, modify, gets, ret. rewrite Hinit.
  destruct (watch_init w attr); [|reflexivity].
  rewrite call_watcher_attached by (rewrite Hw; exact H). rewrite Hi. reflexivity.
Qed.

Lemma mounting_start w ref :
  _input_widget (widget w) = Some ref -> mounting w ref 0 w.
Proof.
  intros H. unfold mounting. cbn [repeat]. rewrite app_nil_r. repeat split. exact H.
Qed.

Lemma mounting_register w0 ref k w1 attr cb :
  mounting w0 ref k w1 -> mounting w0 ref k (register ref attr cb w1).
Proof.
  intros (Hi & Hw & Hg & Hinit & Hc).
  destruct (register_frame w1 ref attr cb) as (Ew & Ei & Einit & _ & _ & Ec).
  unfold mounting. rewrite Ew, Ei, Einit, Ec. repeat split; assumption.
Qed.

Lemma mounting_sync w0 ref k w1 text cursor :
  text = value (inputs w0 ref) ->
  cursor = cursor_position (inputs w0 ref) ->
  mounting w0 ref k w1 ->
  mounting w0 ref (S k) (snd (_sync_state text cursor w1)).
Proof.
  intros -> -> (Hi & Hw & Hg & Hinit & Hc).
  assert (Hcalls : calls w1 ++ [(value (inputs w0 ref), cursor_position (inputs w0 ref))]
                   = calls w0
                     ++ repeat (value (inputs w0 ref), cursor_position (inputs w0 ref)) (S k)).
  { rewrite Hc, <- app_assoc. f_equal. rewrite <- repeat_cons. reflexivity. }
  unfold mounting.
  destruct (_get_results (widget w1) (value (inputs w0 ref))
              (cursor_position (inputs w0 ref)) (provider w1)) as [[e | ms] p] eqn:E.
  - rewrite (sync_raises _ _ _ _ _ E). cbn [snd inputs widget watch_init calls].
    repeat split; assumption.
  - rewrite (sync_returns _ _ _ _ _ E).
    cbn [snd inputs widget watch_init calls _input_widget _get_results].
    repeat split; assumption.
Qed.

(** A subscription during the mount: it returns, after one sync where the
    host calls the watcher at once and after none where it does not, or
    it raises what the provider raised to the watcher's sync. *)
Lemma watch_while_mounting w0 ref k w1 attr cb :
  mounting w0 ref k w1 ->
  let w2 := snd (watch ref attr cb w1) in
  In (ref, attr, cb) (watchers w2)
  /\ (forall x, In x (watchers w1) -> In x (watchers w2))
  /\ ((fst (watch ref attr cb w1) = Returns tt
       /\ mounting w0 ref (k + (if watch_init w0 attr then 1 else 0)) w2)
      \/ (watch_init w0 attr = true
          /\ mounting w0 ref (S k) w2
          /\ exists e p p',
               _get_results (widget w0) (value (inputs w0 ref))
                            (cursor_position (inputs w0 ref)) p = (inl e, p')
               /\ fst (watch ref attr cb w1) = Raises e)).
Proof.
  intros Hm. pose proof Hm as (Hi & Hw & Hg & Hinit & Hc). cbv zeta.
  rewrite (watch_attached w1 ref attr cb Hw), Hinit, Hi.
  pose proof (mounting_register w0 ref k w1 attr cb Hm) as Hreg.
  pose proof (register_in w1 ref attr cb) as Hin.
  pose proof (register_keeps w1 ref attr cb) as Hkeep.
  destruct (watch_init w0 attr).
  - pose proof (mounting_sync w0 ref k _ _ _ eq_refl eq_refl Hreg) as Hnext.
    destruct (sync_frame (register ref attr cb w1) (value (inputs w0 ref))
                (cursor_position (inputs w0 ref))) as (_ & Hwatchers & _).
    cbv zeta in Hwatchers. rewrite Hwatchers.
    split; [exact Hin|]. split; [exact Hkeep|].
    destruct (_get_results (widget (register ref attr cb w1)) (value (inputs w0 ref))
                (cursor_position (inputs w0 ref)) (provider (register ref attr cb w1)))
      as [[e | ms] p] eqn:E.
    + right. split; [reflexivity|]. split; [exact Hnext|].
      exists e, (provider (register ref attr cb w1)), p. split.
      * destruct Hreg as (_ & _ & Hg' & _). rewrite <- Hg'. exact E.
      * rewrite (sync_raises _ _ _ _ _ E). reflexivity.
    + left. split.
      * rewrite (sync_returns _ _ _ _ _ E). reflexivity.
      * rewrite Nat.add_1_r. exact Hnext.
  - cbn [fst snd]. split; [exact Hin|]. split; [exact Hkeep|].
    left. split; [reflexivity|]. rewrite Nat.add_0_r. exact Hreg.
Qed.

(** With the layer there, [on_mount] stores the reference, subscribes and
    syncs. *)
Lemma on_mount_layer w ref :
  linked_ref w = Some ref ->
  In "textual-autocomplete" (layers w) ->
  on_mount w = subscribe_and_sync ref (resolved ref w).
Proof.
  intros Href Hlayer. apply layer_check in Hlayer.
  unfold linked_ref in Href.
  unfold on_mount, subscribe_and_sync, resolved.
  unfold bind at 1 2 3 4. unfold gets at 1 2. unfold app_query_one, bind, gets, raise, ret.
  destruct (_linked_input (widget w)) as [ref' | query].
  - injection Href as ->. cbn [set_input_widget modify with_widget layers snd].
    rewrite Hlayer. reflexivity.
  - rewrite Href. cbn [set_input_widget modify with_widget layers snd].
    rewrite Hlayer. reflexivity.
Qed.

(** How the subscriptions and the sync of a mount end: in the sync of a
    watcher called at once, to which the provider raised, or in the sync
    of [on_mount] itself, after both subscriptions and the syncs of all
    the watchers the host calls at once. *)
Lemma subscribe_and_sync_cases w0 ref :
  _input_widget (widget w0) = Some ref ->
  exists k w2,
    mounting w0 ref k w2
    /\ (((1 <= k <= init_calls w0)%nat
         /\ exists e p p',
              _get_results (widget w0) (value (inputs w0 ref))
                           (cursor_position (inputs w0 ref)) p = (inl e, p')
              /\ subscribe_and_sync ref w0 = (Raises e, w2))
        \/ (k = init_calls w0
            /\ In (ref, "cursor_position", cursor_position_changed) (watchers w2)
            /\ In (ref, "value", value_changed) (watchers w2)
            /\ subscribe_and_sync ref w0
               = _sync_state (value (inputs w0 ref)) (cursor_position (inputs w0 ref)) w2)).
Proof.
  intros Hatt. unfold subscribe_and_sync, init_calls.
  pose proof (watch_while_mounting w0 ref 0 w0 "cursor_position" cursor_position_changed
                (mounting_start w0 ref Hatt)) as (In1 & _ & Cases1).
  cbv zeta in In1, Cases1.
  destruct (watch ref "cursor_position" cursor_position_changed w0) as [r1 w1] eqn:E1.
  cbn [fst snd] in In1, Cases1.
  destruct Cases1 as [(-> & M1) | (B1 & M1 & e & p & p' & Hp & ->)].
  - rewrite (bind_returns _ _ _ _ _ E1).
    pose proof (watch_while_mounting w0 ref _ w1 "value" value_changed M1)
      as (In2 & Keep2 & Cases2).
    cbv zeta in In2, Keep2, Cases2.
    destruct (watch ref "value" value_changed w1) as [r2 w2] eqn:E2.
    cbn [fst snd] in In2, Keep2, Cases2.
    destruct Cases2 as [(-> & M2) | (B2 & M2 & e & p & p' & Hp & ->)].
    + rewrite (bind_returns _ _ _ _ _ E2).
      eexists. exists w2. split; [exact M2|]. right.
      split; [reflexivity|]. split; [exact (Keep2 _ In1)|]. split; [exact In2|].
      unfold bind, gets. destruct M2 as (-> & _). reflexivity.
    + rewrite (bind_raises _ _ _ _ _ E2).
      eexists. exists w2. split; [exact M2|]. left. rewrite B2. split.
      * destruct (watch_init w0 "cursor_position"); cbn; lia.
      * exists e, p, p'. split; [exact Hp | reflexivity].
  - rewrite (bind_raises _ _ _ _ _ E1).
    exists 1%nat, w1. split; [exact M1|]. left. rewrite B1. split.
    + destruct (watch_init w0 "value"); cbn; lia.
    + exists e, p, p'. split; [exact Hp | reflexivity].
Qed.

(** C9, as the code has it.  With the layer there and the linked input
    resolved, every call [on_mount] makes to the provider is on the
    input's current value and cursor position; the last is its own sync,
    made after both subscriptions, and before it come the syncs of the
    watchers that the host calls at once on subscription.  So there are
    between one and three calls, and exactly one when the host calls no
    watcher on subscription.  The mount returns when the provider answers
    for that text and cursor position; and when it returns, both
    subscriptions are installed, the matches are the provider's answer to
    the last call, the display flag is on exactly for a non-empty answer to
    a non-empty text, the renderer's filter is the text in the input, and
    each occurrence of that text in the line of a match is highlighted in
    the block. *)
Theorem mount_syncs_on_current_input w ref :
  In "textual-autocomplete" (layers w) ->
  linked_ref w = Some ref ->
  let text := value (inputs w ref) in
  let cursor := cursor_position (inputs w ref) in
  let w' := snd (on_mount w) in
  (exists k, (1 <= k <= S (init_calls w))%nat
             /\ calls w' = calls w ++ repeat (text, cursor) k
             /\ (fst (on_mount w) = Returns tt -> k = S (init_calls w)))
  /\ (init_calls w = 0%nat -> calls w' = calls w ++ [(text, cursor)])
  /\ (answers w text cursor -> fst (on_mount w) = Returns tt)
  /\ (fst (on_mount w) = Returns tt ->
      In (ref, "cursor_position", cursor_position_changed) (watchers w')
      /\ In (ref, "value", value_changed) (watchers w')
      /\ (exists p0,
            _get_results (widget w) text cursor p0
            = (inr (_matches (widget w')), provider w'))
      /\ (display (widget w') = true <-> _matches (widget w') <> [] /\ text <> "")
      /\ render w' = (Returns (DropdownRender.mk text (_matches (widget w')) 0), w')
      /\ (text <> "" ->
          forall before c after i,
            _matches (widget w') = before ++ c :: after ->
            occurs_at text (Rich.strip_control_codes (main c)) i ->
            highlighted
              (DropdownRender.__rich_console__
                 (DropdownRender.mk text (_matches (widget w')) 0))
              (line_offset before + i))).
Proof.
  intros Hlayer Href. cbv zeta. rewrite (on_mount_layer w ref Href Hlayer).
  destruct (subscribe_and_sync_cases (resolved ref w) ref eq_refl)
    as (k & w2 & M & Cases).
  change (inputs (resolved ref w)) with (inputs w) in *.
  change (calls (resolved ref w)) with (calls w) in *.
  change (init_calls (resolved ref w)) with (init_calls w) in *.
  change (_get_results (widget (resolved ref w))) with (_get_results (widget w)) in *.
  destruct M as (Hi & Hw & Hg & _ & Hc).
  change (inputs (resolved ref w)) with (inputs w) in *.
  change (calls (resolved ref w)) with (calls w) in *.
  change (_get_results (widget (resolved ref w))) with (_get_results (widget w)) in *.
  assert (Hlast : forall k', calls w ++ repeat (value (inputs w ref),
                                                cursor_position (inputs w ref)) k'
                               ++ [(value (inputs w ref), cursor_position (inputs w ref))]
                             = calls w ++ repeat (value (inputs w ref),
                                                  cursor_position (inputs w ref)) (S k')).
  { intros k'. rewrite <- repeat_cons. reflexivity. }
  destruct Cases as [(Hk & e & p & p' & Hp & ->) | (-> & In1 & In2 & ->)].
  - cbn [fst snd]. split; [|split; [|split]].
    + exists k. split; [lia|]. split; [exact Hc | discriminate].
    + intros H0. lia.
    + intros Hans. destruct (Hans p) as (ms & p'' & Hret). congruence.
    + discriminate.
  - destruct (_get_results (widget w2) (value (inputs w ref))
                (cursor_position (inputs w ref)) (provider w2)) as [[e | ms] p] eqn:E.
    + rewrite (sync_raises _ _ _ _ _ E). cbn [fst snd calls]. rewrite Hc, <- app_assoc, Hlast.
      split; [|split; [|split]].
      * exists (S (init_calls w)). split; [lia|]. split; [reflexivity | discriminate].
      * intros ->. reflexivity.
      * intros Hans. destruct (Hans (provider w2)) as (ms & p'' & Hret).
        rewrite Hg in E. congruence.
      * discriminate.
    + rewrite (sync_returns _ _ _ _ _ E).
      cbn [fst snd calls widget _matches display watchers provider].
      rewrite Hc, <- app_assoc, Hlast.
      split; [|split; [|split]].
      * exists (S (init_calls w)). split; [lia|]. split; reflexivity.
      * intros ->. reflexivity.
      * reflexivity.
      * intros _. split; [exact In1|]. split; [exact In2|].
        split; [exists (provider w2); rewrite <- Hg; exact E|].
        split; [apply visible_iff|]. split.
        -- rewrite render_attached with (ref := ref); [|exact Hw].
           cbn [inputs widget _matches]. rewrite Hi. reflexivity.
        -- intros Hne before c after i Hms Hocc.
           exact (block_highlights_occurrence
                    (DropdownRender.mk (value (inputs w ref)) ms 0)
                    before c after i Hne Hms Hocc).
Qed.

End MountSync.

(** * Runs *)

Section Runs.

Context {PState : Type}.
Implicit Types (w : World PState) (e : Event) (es : list Event).

(** ** Methods that respect a preorder on worlds *)

Section Respects.

Variable R : World PState -> World PState -> Prop.
Context {R_preorder : PreOrder R}.

Lemma respects_ret {A : Type} (a : A) : respects R (ret a).
Proof. intros w. reflexivity. Qed.

Lemma respects_raise {A : Type} (x : Exn) : respects R (@raise PState A x).
Proof. intros w. reflexivity. Qed.

Lemma respects_gets {A : Type} (f : World PState -> A) : respects R (gets f).
Proof. intros w. reflexivity. Qed.

Lemma respects_modify (f : World PState -> World PState) :
  (forall w, R w (f w)) -> respects R (modify f).
Proof. intros H w. apply H. Qed.

Lemma respects_bind {A B : Type} (m : M PState A) (k : A -> M PState B) :
  respects R m -> (forall a, respects R (k a)) -> respects R (bind m k).
Proof.
  intros Hm Hk w. specialize (Hm w). unfold bind.
  destruct (m w) as [[a | x] w1]; cbn [snd] in *.
  - transitivity w1; [exact Hm | apply Hk].
  - exact Hm.
Qed.

(** What only needs a sync and a registration to respect [R]. *)
Hypothesis sync_respects : forall text cursor, respects R (_sync_state text cursor).
Hypothesis register_respects : forall obj attr cb w, R w (register obj attr cb w).

Lemma respects_assert : respects R assert_input_widget.
Proof.
  unfold assert_input_widget. apply respects_bind; [apply respects_gets|].
  intros [ref|]; [apply respects_ret | apply respects_raise].
Qed.

Lemma respects_cursor_callback cursor : respects R (_input_cursor_position_changed cursor).
Proof.
  unfold _input_cursor_position_changed.
  apply respects_bind; [apply respects_assert | intros ref].
  apply respects_bind; [apply respects_gets | intros input]. apply sync_respects.
Qed.

Lemma respects_value_callback text : respects R (_input_value_changed text).
Proof.
  unfold _input_value_changed.
  apply respects_bind; [apply respects_assert | intros ref].
  apply respects_bind; [apply respects_gets | intros input]. apply sync_respects.
Qed.

Lemma respects_watch obj attr cb : respects R (watch obj attr cb).
Proof.
  unfold watch. apply respects_bind.
  - apply respects_modify. intros w. apply register_respects.
  - intros _. apply respects_bind; [apply respects_gets | intros init].
    destruct init; [|apply respects_ret].
    unfold call_watcher. apply respects_bind; [apply respects_gets | intros input].
    destruct cb; [apply respects_cursor_callback | apply respects_value_callback].
Qed.

Lemma respects_subscribe_and_sync ref : respects R (subscribe_and_sync ref).
Proof.
  unfold subscribe_and_sync.
  apply respects_bind; [apply respects_watch | intros _].
  apply respects_bind; [apply respects_watch | intros _].
  apply respects_bind; [apply respects_gets | intros input]. apply sync_respects.
Qed.

Lemma respects_render : respects R render.
Proof.
  unfold render. apply respects_bind; [apply respects_assert | intros ref].
  apply respects_bind; [apply respects_gets | intros input].
  apply respects_bind; [apply respects_gets | intros ms]. apply respects_ret.
Qed.

End Respects.

(** ** The display flag over a run *)

#[local] Instance keeps_shown_preorder : PreOrder (@keeps_shown PState).
Proof.
  split.
  - intros w H. exact H.
  - intros w1 w2 w3 H12 H23 H. apply H23, H12, H.
Qed.

Lemma sync_keeps_shown text cursor : respects (@keeps_shown PState) (_sync_state text cursor).
Proof.
  intros w Hw. unfold shown_has_matches.
  destruct (_get_results (widget w) text cursor (provider w)) as [[x | ms] p] eqn:E.
  - rewrite (sync_raises _ _ _ _ _ E). exact Hw.
  - rewrite (sync_returns _ _ _ _ _ E). cbn [snd widget display _matches].
    intros H. apply visible_iff in H. apply H.
Qed.

Lemma register_keeps_shown obj attr cb w : keeps_shown w (register obj attr cb w).
Proof.
  intros Hw. unfold shown_has_matches.
  destruct (register_frame w obj attr cb) as (-> & _). exact Hw.
Qed.

Lemma on_mount_keeps_shown : respects (@keeps_shown PState) on_mount.
Proof.
  intros w. destruct (linked_ref w) as [ref|] eqn:Href.
  - destruct (in_dec string_dec "textual-autocomplete" (layers w)) as [Hin | Hout].
    + rewrite (on_mount_layer w ref Href Hin).
      transitivity (resolved ref w).
      * intros Hw. exact Hw.
      * apply (respects_subscribe_and_sync (@keeps_shown PState) sync_keeps_shown
                 register_keeps_shown).
    + rewrite (on_mount_no_layer w ref Href Hout). intros Hw. exact Hw.
  - destruct (on_mount_unresolved w Href) as (query & ->). reflexivity.
Qed.

Lemma deliver_keeps_shown e : respects (@keeps_shown PState) (deliver e).
Proof.
  destruct e as [|cursor|text| |ref input]; cbn [deliver].
  - apply on_mount_keeps_shown.
  - apply (respects_cursor_callback (@keeps_shown PState) sync_keeps_shown).
  - apply (respects_value_callback (@keeps_shown PState) sync_keeps_shown).
  - apply (respects_bind (@keeps_shown PState));
      [|intros d; apply (respects_ret (@keeps_shown PState))].
    apply (respects_render (@keeps_shown PState)).
  - intros w Hw. exact Hw.
Qed.

(** X14.  In a widget whose display flag is off or whose match list is not
    empty, whatever the host does in whatever order (mount, callbacks with
    any arguments, renders, changes of the input), the display flag is
    never on over an empty match list; and that holds from the moment the
    host has applied [DEFAULT_CSS], which turns the flag off.  (As
    constructed the widget has the flag on and no matches.) *)
Theorem shown_dropdown_always_has_matches w es :
  (shown_has_matches w -> shown_has_matches (run es w))
  /\ shown_has_matches (run es (snd (apply_default_css w))).
Proof.
  assert (Hrun : forall es w, shown_has_matches w -> shown_has_matches (run es w)).
  { clear w es. induction es as [|e es IH]; intros w Hw.
    - exact Hw.
    - cbn [run fold_left]. apply IH. apply (deliver_keeps_shown e w Hw). }
  split; [apply Hrun|]. apply Hrun. unfold shown_has_matches.
  cbn [apply_default_css set_display modify with_widget snd widget display]. discriminate.
Qed.

(** ** The input held over a run *)

#[local] Instance same_link_preorder : PreOrder (@same_link PState).
Proof.
  split.
  - intros w. split; reflexivity.
  - intros w1 w2 w3 [Hi12 Hl12] [Hi23 Hl23]. split; congruence.
Qed.

Lemma sync_same_link text cursor : respects (@same_link PState) (_sync_state text cursor).
Proof.
  intros w. unfold same_link.
  destruct (_get_results (widget w) text cursor (provider w)) as [[x | ms] p] eqn:E.
  - rewrite (sync_raises _ _ _ _ _ E). split; reflexivity.
  - rewrite (sync_returns _ _ _ _ _ E). split; reflexivity.
Qed.

Lemma register_same_link obj attr cb w : same_link w (register obj attr cb w).
Proof.
  unfold same_link, register.
  destruct (existsb (same_watcher (obj, attr, cb)) (watchers w)); split; reflexivity.
Qed.

Lemma deliver_keeps_link e w :
  input_is_linked w ->
  input_is_linked (snd (deliver e w)) /\ linked_ref (snd (deliver e w)) = linked_ref w.
Proof.
  intros Hw.
  assert (Hsame : forall w', same_link w w' ->
            input_is_linked w' /\ linked_ref w' = linked_ref w).
  { intros w' [Hi Hl]. split; [|exact Hl]. unfold input_is_linked. rewrite Hi, Hl. exact Hw. }
  destruct e as [|cursor|text| |ref input]; cbn [deliver].
  - destruct (linked_ref w) as [ref|] eqn:Href.
    + assert (Hres : input_is_linked (resolved ref w)
                     /\ linked_ref (resolved ref w) = Some ref).
      { split; [right|]; (transitivity (Some ref); [reflexivity | symmetry; exact Href])
                         || exact Href. }
      destruct (in_dec string_dec "textual-autocomplete" (layers w)) as [Hin | Hout].
      * rewrite (on_mount_layer w ref Href Hin).
        destruct (respects_subscribe_and_sync (@same_link PState) sync_same_link register_same_link
                    ref (resolved ref w)) as [Hi Hl].
        destruct Hres as [_ Hres]. rewrite Hres in Hl.
        change (_input_widget (widget (resolved ref w))) with (Some ref) in Hi.
        split; [right; rewrite Hi, Hl; reflexivity | exact Hl].
      * rewrite (on_mount_no_layer w ref Href Hout). exact Hres.
    + destruct (on_mount_unresolved w Href) as (query & ->). cbn [snd].
      split; [exact Hw | exact Href].
  - apply Hsame. apply (respects_cursor_callback (@same_link PState) sync_same_link).
  - apply Hsame. apply (respects_value_callback (@same_link PState) sync_same_link).
  - apply Hsame. apply (respects_bind (@same_link PState));
      [|intros d; apply (respects_ret (@same_link PState))].
    apply (respects_render (@same_link PState)).
  - split; [exact Hw | reflexivity].
Qed.

(** X16.  From a widget as its constructor leaves it, over any run, the
    input the widget holds is none or the one it was linked to (the
    reference given, or what the selector resolves to): the callbacks and
    the renderer never read another input. *)
Theorem widget_only_holds_its_linked_input w es linked_input gr :
  widget w = AutoComplete_init linked_input gr ->
  input_is_linked (run es w) /\ linked_ref (run es w) = linked_ref w.
Proof.
  intros Hinit.
  assert (Hw : input_is_linked w).
  { left. rewrite Hinit. reflexivity. }
  clear Hinit. revert w Hw. induction es as [|e es IH]; intros w Hw.
  - split; [exact Hw | reflexivity].
  - cbn [run fold_left]. destruct (deliver_keeps_link e w Hw) as [Hnext Hsame].
    destruct (IH _ Hnext) as [Hfinal Hlink]. unfold run in *.
    split; [exact Hfinal | rewrite Hlink; exact Hsame].
Qed.

(** ** The calls to the provider over a run *)












End Runs.

(** ** Mounts and runs at concrete inputs *)

(** A mount while the input already holds ["hel"] with the cursor at 3, on
    a host that calls the value watcher at once. *)
Lemma mount_syncs_on_current_input_witness :
  In "textual-autocomplete" (layers (fresh_world "hel" 3 ["default"; "textual-autocomplete"]))
  /\ linked_ref (fresh_world "hel" 3 ["default"; "textual-autocomplete"]) = Some 0%nat
  /\ answers (fresh_world "hel" 3 ["default"; "textual-autocomplete"]) "hel" 3
  /\ fst (on_mount (fresh_world "hel" 3 ["default"; "textual-autocomplete"])) = Returns tt
  /\ fst (render (snd (on_mount (fresh_world "hel" 3 ["default"; "textual-autocomplete"]))))
     = Returns (DropdownRender.mk "hel" [hello; help] 0)
  /\ (forall i, occurs_at "hel" "help" i ->
        highlighted (DropdownRender.__rich_console__ (DropdownRender.mk "hel" [hello; help] 0))
                    (6 + i)).
Proof.
  assert (H : In "textual-autocomplete"
                (layers (fresh_world "hel" 3 ["default"; "textual-autocomplete"])))
    by (simpl; right; left; reflexivity).
  assert (Hans : answers (fresh_world "hel" 3 ["default"; "textual-autocomplete"]) "hel" 3).
  { intros p. exists [hello; help], p. reflexivity. }
  split; [exact H|]. split; [reflexivity|]. split; [exact Hans|].
  destruct (mount_syncs_on_current_input
              (fresh_world "hel" 3 ["default"; "textual-autocomplete"]) 0%nat H eq_refl)
    as (_ & _ & Hret & Hafter).
  specialize (Hret Hans). destruct (Hafter Hret) as (_ & _ & _ & _ & Hrender & Hlight).
  split; [exact Hret|]. split.
  - rewrite Hrender. reflexivity.
  - intros i Hocc.
    exact (Hlight ltac:(discriminate) [hello] help [] i eq_refl Hocc).
Defined.

(** C9 fails on the count: on a host that calls the value watcher at once,
    the mount returns after two calls to the provider, both on the input's
    value and cursor position, and not after exactly one; with the
    provider that counts its calls the matches kept are the answer to the
    second call, not to the first. *)
Lemma mount_syncs_more_than_once :
  let w := fresh_world "hel" 3 ["default"; "textual-autocomplete"] in
  fst (on_mount w) = Returns tt
  /\ calls (snd (on_mount w)) = [("hel", 3); ("hel", 3)]
  /\ calls (snd (on_mount w)) <> calls w ++ [("hel", 3)]
  /\ counting_provider "h" 1 0%nat = (inr [hello], 1%nat)
  /\ calls (snd (on_mount counting_world)) = [("h", 1); ("h", 1)]
  /\ _matches (widget (snd (on_mount counting_world))) = [hello; hello].
Proof.
  cbv zeta. split; [reflexivity|]. split; [reflexivity|]. split.
  - vm_compute. discriminate.
  - split; [reflexivity|]. split; reflexivity.
Qed.

(** A mount, the input emptied, the value callback, a render: from the
    widget once [DEFAULT_CSS] is applied, and from the attached widget. *)
Lemma shown_dropdown_always_has_matches_witness :
  shown_has_matches (attached_world "hel" 3)
  /\ shown_has_matches
       (run [Mounts; InputBecomes 0 (mkInput "" 0); ValueChanges ""; Renders]
            (attached_world "hel" 3))
  /\ shown_has_matches
       (run [Mounts; InputBecomes 0 (mkInput "" 0); ValueChanges ""; Renders]
            (snd (apply_default_css (fresh_world "hel" 3 ["textual-autocomplete"])))).
Proof.
  assert (H : shown_has_matches (attached_world "hel" 3)).
  { intros _. discriminate. }
  split; [exact H|]. split.
  - exact (proj1 (shown_dropdown_always_has_matches (attached_world "hel" 3)
                    [Mounts; InputBecomes 0 (mkInput "" 0); ValueChanges ""; Renders]) H).
  - exact (proj2 (shown_dropdown_always_has_matches
                    (fresh_world "hel" 3 ["textual-autocomplete"])
                    [Mounts; InputBecomes 0 (mkInput "" 0); ValueChanges ""; Renders])).
Defined.

Lemma widget_only_holds_its_linked_input_witness :
  widget (fresh_world "hel" 3 ["textual-autocomplete"])
  = AutoComplete_init (InputRef 0) lookup_provider
  /\ input_is_linked
       (run [CursorMoves 2; Mounts; Mounts; ValueChanges "ap"]
            (fresh_world "hel" 3 ["textual-autocomplete"])).
Proof.
  split; [reflexivity|].
  exact (proj1 (widget_only_holds_its_linked_input
                  (fresh_world "hel" 3 ["textual-autocomplete"])
                  [CursorMoves 2; Mounts; Mounts; ValueChanges "ap"]
                  (InputRef 0) lookup_provider eq_refl)).
Defined.
